(** * Bridge-gap resonator: the scattering-parameter pipeline

    A shallow embedding of [examples/meep/bridge_gap_resonator.py] and of
    [crates/meep-export/examples/bridge_gap_resonator_meep.py], followed by
    the properties of the pipeline: unit conversion, geometry, the two-pass
    reference protocol, the S-parameter arithmetic, the entry point and the
    run of the exported script.

    Modelling choices.
    - A Python float is an IEEE-754 binary64 number: it is a primitive float
      of Rocq, whose operations are the correctly rounded binary64 ones and
      are specified by [SpecFloat].
    - The field solver (meep) is a collaborator of the script: it is an
      interface, [Solver].  Its shape and source constructors are plain data
      here; whatever they check on their own is outside the model.  numpy's
      [log10] is a parameter too.
    - The script is written in a monad that threads the solver's state and
      records every call the script makes, in order.  A blocking [sim.run] is
      a loop of solver steps; an execution is allowed a number of steps and
      is reported as still running when it needs more.
    - Console output is not modelled. *)

From Stdlib Require Import ZArith List Bool String Floats Reals Lra Lia Psatz.
Import ListNotations.

Set Warnings "-inexact-float".

(** ** Python numbers *)

(** A list comprehension such as [[-r / i if i != 0 else 0 for ...]] mixes
    floats with the int literals of its [else] branch. *)
Inductive num : Type :=
| PyInt (z : Z)
| PyFloat (f : float).

(** [float(z)] for a Python int. *)
Definition float_of_Z (z : Z) : float :=
  SF2Prim (binary_normalize prec emax z 0 false).

Definition to_float (x : num) : float :=
  match x with
  | PyInt z => float_of_Z z
  | PyFloat f => f
  end.

(** [x != 0] *)
Definition float_ne0 (f : float) : bool := negb (f =? 0)%float.

Definition num_ne0 (x : num) : bool :=
  match x with
  | PyInt z => negb (z =? 0)%Z
  | PyFloat f => float_ne0 f
  end.

(** [abs(x)] *)
Definition num_abs (x : num) : num :=
  match x with
  | PyInt z => PyInt (Z.abs z)
  | PyFloat f => PyFloat (abs f)
  end.

(** Python's [==] on numbers; two ints compare as integers. *)
Definition num_eqb (x y : num) : bool :=
  match x, y with
  | PyInt a, PyInt b => (a =? b)%Z
  | _, _ => (to_float x =? to_float y)%float
  end.

(** [zip] stops at the shorter of its two arguments. *)
Fixpoint zip {A B : Type} (xs : list A) (ys : list B) : list (A * B) :=
  match xs, ys with
  | x :: xs', y :: ys' => (x, y) :: zip xs' ys'
  | _, _ => []
  end.

(** Python's two-argument [max]: the first argument unless the second is
    strictly greater. *)
Definition py_max (a b : float) : float :=
  if (a <? b)%float then b else a.

(** ** Configuration *)

Definition MM_TO_UM : float := 1000%float.

(** The [config] dictionary.  Its integer-valued lengths ([8 * MM_TO_UM] and
    the like) are small integers, which binary64 represents exactly; the
    script only ever uses them in float arithmetic.  The resolution stays an
    integer. *)
Record Config : Type := {
  gap : float;
  bridge_w : float;
  bridge_t : float;
  pad_length : float;
  substrate_r : float;
  substrate_h : float;
  wall_thickness : float;
  resolution : Z;
  pml_thickness : float;
  freq_center_ghz : float;
  freq_width_ghz : float
}.

Definition config : Config := {|
  gap := 2.5 * MM_TO_UM;
  bridge_w := 8 * MM_TO_UM;
  bridge_t := 0.5 * MM_TO_UM;
  pad_length := 25 * MM_TO_UM;
  substrate_r := 15 * MM_TO_UM;
  substrate_h := 9.6 * MM_TO_UM;
  wall_thickness := 2 * MM_TO_UM;
  resolution := 5%Z;
  pml_thickness := 2000;
  freq_center_ghz := 5.0;
  freq_width_ghz := 4.0
|}%float.

(** ** Unit conversion *)

Definition ghz_to_meep (f_ghz : float) : float := (f_ghz / 300.0)%float.

Definition meep_to_ghz (f_meep : float) : float := (f_meep * 300.0)%float.

(** ** Geometry *)

Record Vector3 : Type := mkVector3 { vx : float; vy : float; vz : float }.

Inductive Medium : Type :=
| metal
| air
| MediumEps (epsilon : float).

Definition copper : Medium := metal.
Definition fr4 : Medium := MediumEps 4.4%float.

(** [mp.Block] and [mp.Cylinder]; a cylinder built without [axis] gets the
    solver's default, the z axis. *)
Inductive GeometricObject : Type :=
| Block (center size : Vector3) (material : Medium)
| Cylinder (center : Vector3) (radius height : float) (axis : Vector3)
    (material : Medium).

Definition default_axis : Vector3 := (mkVector3 0 0 1)%float.

Definition build_geometry (cfg : Config) : list GeometricObject :=
  (let geometry := [] in
  let gap := gap cfg in
  let bridge_w := bridge_w cfg in
  let bridge_t := bridge_t cfg in
  let pad_length := pad_length cfg in
  let left_pad_center :=
    mkVector3 (- gap / 2 - pad_length / 2) 0 (bridge_t / 2) in
  let geometry := geometry ++
    [Block left_pad_center (mkVector3 pad_length bridge_w bridge_t) copper] in
  let right_pad_center :=
    mkVector3 (gap / 2 + pad_length / 2) 0 (bridge_t / 2) in
  let geometry := geometry ++
    [Block right_pad_center (mkVector3 pad_length bridge_w bridge_t) copper] in
  let bridge_width := gap + 4 * MM_TO_UM in
  let bridge_height := bridge_t * 0.5 in
  let bridge_y_size := bridge_w * 0.6 in
  let geometry := geometry ++
    [Block (mkVector3 0 0 (bridge_t * 1.25))
           (mkVector3 bridge_width bridge_y_size bridge_height) copper] in
  let substrate_r := substrate_r cfg in
  let substrate_h := substrate_h cfg in
  let wall_t := wall_thickness cfg in
  let geometry := geometry ++
    [Cylinder (mkVector3 0 0 (- substrate_h / 2)) substrate_r substrate_h
              default_axis fr4] in
  let geometry := geometry ++
    [Cylinder (mkVector3 0 0 (- substrate_h / 2)) (substrate_r - wall_t)
              (substrate_h + 100) default_axis air] in
  geometry)%float.

(** ** S-parameters

    numpy is not part of the repository: its [log10] is a parameter. *)
Class Numpy : Type := { np_log10 : float -> float }.

Section SParameters.
Context {np : Numpy}.

(** [[-r / i if i != 0 else 0 for r, i in zip(refl_flux, incident_flux)]] *)
Definition s11_of (refl_flux incident_flux : list float) : list num :=
  map (fun '(r, i) => if float_ne0 i then PyFloat (- r / i)%float else PyInt 0)
      (zip refl_flux incident_flux).

(** [[t / i if i != 0 else 0 for t, i in zip(trans_flux, incident_flux)]] *)
Definition s21_of (trans_flux incident_flux : list float) : list num :=
  map (fun '(t, i) => if float_ne0 i then PyFloat (t / i)%float else PyInt 0)
      (zip trans_flux incident_flux).

(** [10 * np.log10(abs(s)) if s != 0 else -100] *)
Definition db_of (s : num) : num :=
  if num_ne0 s then PyFloat (10 * np_log10 (to_float (num_abs s)))%float
  else PyInt (-100).

Definition to_db (ss : list num) : list num := map db_of ss.

End SParameters.


(** ** Simulation descriptors *)

Inductive Component : Type := Ez.

Record GaussianSource : Type := { frequency : float; fwidth : float }.

Record Source : Type := {
  src : GaussianSource;
  component : Component;
  src_center : Vector3;
  src_size : Vector3
}.

Record PML : Type := { thickness : float }.

Record SimulationArgs : Type := {
  cell_size : Vector3;
  geometry : list GeometricObject;
  sources : list Source;
  boundary_layers : list PML;
  sim_resolution : Z;
  default_material : Medium
}.

Record FluxRegion : Type := { fr_center : Vector3; fr_size : Vector3 }.

(** The arguments of one [sim.add_flux(fcen, fwidth, nfreq, region)]. *)
Record FluxSpec : Type := {
  fs_fcen : float;
  fs_fwidth : float;
  fs_nfreq : Z;
  fs_region : FluxRegion
}.

Record Volume : Type := { vol_center : Vector3; vol_size : Vector3 }.

(** [mp.stop_when_fields_decayed(dt, c, pt, decay_by)], the only stopping
    condition the script builds. *)
Record StopCond : Type := stop_when_fields_decayed {
  sc_dt : float;
  sc_component : Component;
  sc_pt : Vector3;
  sc_decay_by : float
}.

(** Step functions handed to [sim.run].  [capture_field] is the closure of
    [run_simulation]; it keeps the configuration it closes over. *)
Inductive StepFunc : Type :=
| at_every (interval : float) (f : StepFunc)
| in_volume (v : Volume) (f : StepFunc)
| output_efield_z
| capture_field (cfg : Config).

(** [sim.run(step_funcs..., until_after_sources=cond)]: the script passes no
    other keyword. *)
Record RunArgs : Type := {
  step_funcs : list StepFunc;
  until_after_sources : StopCond
}.

Record complex : Type := { re : float; im : float }.

(** The dictionary [run_simulation] saves and returns. *)
Record Results : Type := {
  freqs_ghz : list float;
  s11_db : list num;
  s21_db : list num;
  field_t : list float;
  field_ez : list float
}.

(** The error taxonomy of the specification (section 7).  The script itself
    contains no [raise]. *)
Inductive PipelineError : Type :=
| InvalidGeometry
| MonitorGridMismatch
| DivisionByZero
| NonConvergent.

(** ** The solver boundary

    Simulations and flux monitors are Python objects; the script's n-th
    [mp.Simulation(...)] and n-th [add_flux] are named by their rank.  What
    the solver does with them is left open: a [Solver] is any implementation
    of the calls the script makes.  A blocking [sim.run] is a loop of solver
    time steps that ends when the stopping condition holds. *)
Class Solver : Type := {
  world : Type;
  FluxData : Type;
  sv_simulation : nat -> SimulationArgs -> world -> world;
  sv_set_geometry : nat -> list GeometricObject -> world -> world;
  sv_add_flux : nat -> nat -> FluxSpec -> world -> world;
  sv_load_minus_flux_data : nat -> nat -> FluxData -> world -> world;
  sv_step : nat -> world -> world;
  sv_stop : nat -> StopCond -> world -> bool;
  sv_due : nat -> float -> world -> bool;
  sv_output_efield_z : nat -> option Volume -> world -> world;
  sv_meep_time : nat -> world -> float;
  sv_get_field_point : nat -> Component -> Vector3 -> world -> complex;
  sv_get_fluxes : nat -> world -> list float;
  sv_get_flux_freqs : nat -> world -> list float;
  sv_reset_meep : nat -> world -> world;
  sv_get_flux_data : nat -> nat -> world -> FluxData
}.

Section Pipeline.
Context {np : Numpy} {sv : Solver}.

(** What the script does to the outside, in order. *)
Inductive event : Type :=
| EvMakedirs (path : string)
| EvSimulation (sim : nat) (args : SimulationArgs)
| EvSetGeometry (sim : nat) (g : list GeometricObject)
| EvAddFlux (sim flux : nat) (spec : FluxSpec)
| EvLoadMinusFluxData (sim flux : nat) (data : FluxData)
| EvRunStart (sim : nat) (args : RunArgs)
| EvRunDone (sim : nat)
| EvGetFluxes (flux : nat)
| EvGetFluxFreqs (flux : nat)
| EvResetMeep (sim : nat)
| EvGetFluxData (sim flux : nat) (data : FluxData)
| EvSavez (path : string) (results : Results)
| EvPlotResults (results : Results) (output_dir : string).

(** The state of an execution: the solver's world, the trace so far, the
    solver time steps the execution may still take, the number of
    simulations and monitors created, and [field_data]. *)
Record pstate : Type := {
  st_world : world;
  st_trace : list event;
  st_fuel : nat;
  st_sims : nat;
  st_fluxes : nat;
  st_field_t : list float;
  st_field_ez : list complex
}.

Inductive outcome (A : Type) : Type :=
| Returns (a : A) (st : pstate)
| Raises (e : PipelineError) (st : pstate)
| Diverges (st : pstate).

Arguments Returns {A} a st.
Arguments Raises {A} e st.
Arguments Diverges {A} st.

Definition M (A : Type) : Type := pstate -> outcome A.

Definition ret {A : Type} (a : A) : M A := fun st => Returns a st.

Definition bind {A B : Type} (c : M A) (k : A -> M B) : M B :=
  fun st =>
    match c st with
    | Returns a st' => k a st'
    | Raises e st' => Raises e st'
    | Diverges st' => Diverges st'
    end.

Notation "x <- c ;; k" := (bind c (fun x => k))
  (at level 61, c at next level, right associativity).
Notation "' pat <- c ;; k" := (bind c (fun x => match x with pat => k end))
  (at level 61, pat pattern, c at next level, right associativity).
Notation "c ;; k" := (bind c (fun _ => k))
  (at level 61, right associativity).

Definition final_state {A : Type} (o : outcome A) : pstate :=
  match o with
  | Returns _ st => st
  | Raises _ st => st
  | Diverges st => st
  end.

Definition with_world (w : world) (st : pstate) : pstate :=
  {| st_world := w; st_trace := st_trace st; st_fuel := st_fuel st;
     st_sims := st_sims st; st_fluxes := st_fluxes st;
     st_field_t := st_field_t st; st_field_ez := st_field_ez st |}.

Definition emit (e : event) : M unit :=
  fun st =>
    Returns tt
      {| st_world := st_world st; st_trace := st_trace st ++ [e];
         st_fuel := st_fuel st; st_sims := st_sims st;
         st_fluxes := st_fluxes st; st_field_t := st_field_t st;
         st_field_ez := st_field_ez st |}.

Definition update_world (f : world -> world) : M unit :=
  fun st => Returns tt (with_world (f (st_world st)) st).

Definition ask_world {A : Type} (f : world -> A) : M A :=
  fun st => Returns (f (st_world st)) st.

(** ** Solver calls *)

(** [mp.Simulation(...)] *)
Definition mp_Simulation (args : SimulationArgs) : M nat :=
  fun st =>
    let sim := st_sims st in
    Returns sim
      {| st_world := sv_simulation sim args (st_world st);
         st_trace := st_trace st ++ [EvSimulation sim args];
         st_fuel := st_fuel st; st_sims := S sim;
         st_fluxes := st_fluxes st; st_field_t := st_field_t st;
         st_field_ez := st_field_ez st |}.

(** [sim.geometry = g] *)
Definition set_geometry (sim : nat) (g : list GeometricObject) : M unit :=
  emit (EvSetGeometry sim g) ;;
  update_world (sv_set_geometry sim g).

(** [sim.add_flux(fcen, fwidth, nfreq, region)] *)
Definition add_flux (sim : nat) (fcen fwidth : float) (nfreq : Z)
    (region : FluxRegion) : M nat :=
  fun st =>
    let flux := st_fluxes st in
    let spec := {| fs_fcen := fcen; fs_fwidth := fwidth; fs_nfreq := nfreq;
                   fs_region := region |} in
    Returns flux
      {| st_world := sv_add_flux sim flux spec (st_world st);
         st_trace := st_trace st ++ [EvAddFlux sim flux spec];
         st_fuel := st_fuel st; st_sims := st_sims st;
         st_fluxes := S flux; st_field_t := st_field_t st;
         st_field_ez := st_field_ez st |}.

(** [sim.load_minus_flux_data(flux, data)] *)
Definition load_minus_flux_data (sim flux : nat) (data : FluxData) : M unit :=
  emit (EvLoadMinusFluxData sim flux data) ;;
  update_world (sv_load_minus_flux_data sim flux data).

(** [mp.get_fluxes(flux)] *)
Definition get_fluxes (flux : nat) : M (list float) :=
  emit (EvGetFluxes flux) ;;
  ask_world (sv_get_fluxes flux).

(** [mp.get_flux_freqs(flux)] *)
Definition get_flux_freqs (flux : nat) : M (list float) :=
  emit (EvGetFluxFreqs flux) ;;
  ask_world (sv_get_flux_freqs flux).

(** [sim.reset_meep()] *)
Definition reset_meep (sim : nat) : M unit :=
  emit (EvResetMeep sim) ;;
  update_world (sv_reset_meep sim).

(** [sim.get_flux_data(flux)] *)
Definition get_flux_data (sim flux : nat) : M FluxData :=
  data <- ask_world (sv_get_flux_data sim flux) ;;
  emit (EvGetFluxData sim flux data) ;;
  ret data.

(** One call of a step function.  [capture_field] reads the field at the gap
    centre and appends to [field_data]. *)
Fixpoint eval_step_func (sim : nat) (vol : option Volume) (f : StepFunc)
    (st : pstate) : pstate :=
  match f with
  | at_every interval g =>
      if sv_due sim interval (st_world st)
      then eval_step_func sim vol g st else st
  | in_volume v g => eval_step_func sim (Some v) g st
  | output_efield_z =>
      with_world (sv_output_efield_z sim vol (st_world st)) st
  | capture_field cfg =>
      let ez := sv_get_field_point sim Ez
                  (mkVector3 0 0 (bridge_t cfg / 2)) (st_world st) in
      {| st_world := st_world st; st_trace := st_trace st;
         st_fuel := st_fuel st; st_sims := st_sims st;
         st_fluxes := st_fluxes st;
         st_field_t := st_field_t st ++ [sv_meep_time sim (st_world st)];
         st_field_ez := st_field_ez st ++ [ez] |}
  end.

Definition eval_step_funcs (sim : nat) (fs : list StepFunc) (st : pstate)
  : pstate :=
  fold_left (fun s f => eval_step_func sim None f s) fs st.

Definition with_fuel (n : nat) (st : pstate) : pstate :=
  {| st_world := st_world st; st_trace := st_trace st; st_fuel := n;
     st_sims := st_sims st; st_fluxes := st_fluxes st;
     st_field_t := st_field_t st; st_field_ez := st_field_ez st |}.

(** The time-stepping loop of a run: step functions, then one solver step,
    until the stopping condition holds.  [n] bounds the number of solver
    steps; a run that needs more has not returned. *)
Fixpoint run_loop (n : nat) (sim : nat) (args : RunArgs) (st : pstate)
  : outcome unit :=
  if sv_stop sim (until_after_sources args) (st_world st)
  then Returns tt (with_fuel n (eval_step_funcs sim (step_funcs args) st))
  else
    match n with
    | O => Diverges (with_fuel O st)
    | S n' =>
        let st1 := eval_step_funcs sim (step_funcs args) st in
        run_loop n' sim args (with_world (sv_step sim (st_world st1)) st1)
    end.

(** [sim.run(step_funcs..., until_after_sources=cond)] *)
Definition sim_run (sim : nat) (fs : list StepFunc) (cond : StopCond)
  : M unit :=
  let args := {| step_funcs := fs; until_after_sources := cond |} in
  emit (EvRunStart sim args) ;;
  (fun st => run_loop (st_fuel st) sim args st) ;;
  emit (EvRunDone sim).

(** ** The script *)

Definition create_simulation (cfg : Config) (output_dir : string)
  : M (nat * float * float) :=
  (let pad_length := pad_length cfg in
   let gap := gap cfg in
   let bridge_w := bridge_w cfg in
   let substrate_h := substrate_h cfg in
   let substrate_r := substrate_r cfg in
   let pml := pml_thickness cfg in
   let cell_x := 2 * (pad_length + gap / 2) + 2 * pml + 4000 in
   let cell_y := py_max bridge_w (2 * substrate_r) + 2 * pml + 4000 in
   let cell_z := substrate_h + bridge_t cfg * 2 + 2 * pml + 4000 in
   let cell_size := mkVector3 cell_x cell_y cell_z in
   let geometry := build_geometry cfg in
   let fcen := ghz_to_meep (freq_center_ghz cfg) in
   let fwidth := ghz_to_meep (freq_width_ghz cfg) in
   let sources :=
     [ {| src := {| frequency := fcen; fwidth := fwidth |};
          component := Ez;
          src_center := mkVector3 0 0 (bridge_t cfg / 2);
          src_size := mkVector3 (gap * 0.8) (bridge_w * 0.5) 0 |} ] in
   let pml_layers := [ {| thickness := pml |} ] in
   sim <- mp_Simulation
            {| cell_size := cell_size; geometry := geometry;
               sources := sources; boundary_layers := pml_layers;
               sim_resolution := resolution cfg;
               default_material := air |} ;;
   ret (sim, fcen, fwidth))%float.

(** The [monitors] dictionary of [setup_monitors]. *)
Record Monitors : Type := { refl : nat; trans : nat }.

Definition setup_monitors (sim : nat) (cfg : Config) (fcen fwidth : float)
  : M Monitors :=
  (let gap := gap cfg in
   let bridge_w := bridge_w cfg in
   let bridge_t := bridge_t cfg in
   m_refl <- add_flux sim fcen fwidth 50
     {| fr_center := mkVector3 (- gap / 2 - 1000) 0 (bridge_t / 2);
        fr_size := mkVector3 0 bridge_w (bridge_t * 3) |} ;;
   m_trans <- add_flux sim fcen fwidth 50
     {| fr_center := mkVector3 (gap / 2 + 1000) 0 (bridge_t / 2);
        fr_size := mkVector3 0 bridge_w (bridge_t * 3) |} ;;
   ret {| refl := m_refl; trans := m_trans |})%float.

Definition run_reference (cfg : Config) (output_dir : string)
  : M (list float * list float * FluxData) :=
  (' (sim, fcen, fwidth) <- create_simulation cfg output_dir ;;
   set_geometry sim [] ;;
   let gap := gap cfg in
   let bridge_w := bridge_w cfg in
   let bridge_t := bridge_t cfg in
   refl_fr <- add_flux sim fcen fwidth 50
     {| fr_center := mkVector3 (- gap / 2 - 1000) 0 (bridge_t / 2);
        fr_size := mkVector3 0 bridge_w (bridge_t * 3) |} ;;
   sim_run sim []
     (stop_when_fields_decayed 50 Ez (mkVector3 0 0 (bridge_t / 2)) 1e-6) ;;
   incident_flux <- get_fluxes refl_fr ;;
   freqs <- get_flux_freqs refl_fr ;;
   reset_meep sim ;;
   data <- get_flux_data sim refl_fr ;;
   ret (freqs, incident_flux, data))%float.

(** [field_data = {"t": [], "ez_gap": []}] *)
Definition new_field_data : M unit :=
  fun st =>
    Returns tt
      {| st_world := st_world st; st_trace := st_trace st;
         st_fuel := st_fuel st; st_sims := st_sims st;
         st_fluxes := st_fluxes st; st_field_t := [];
         st_field_ez := [] |}.

Definition get_field_data : M (list float * list complex) :=
  fun st => Returns (st_field_t st, st_field_ez st) st.

Definition slice_interval : float := 20%float.

Definition run_simulation (cfg : Config) (output_dir : string) (plot : bool)
  : M Results :=
  (emit (EvMakedirs output_dir) ;;
   ' (freqs, incident_flux, refl_data) <- run_reference cfg output_dir ;;
   ' (sim, fcen, fwidth) <- create_simulation cfg output_dir ;;
   monitors <- setup_monitors sim cfg fcen fwidth ;;
   load_minus_flux_data sim (refl monitors) refl_data ;;
   new_field_data ;;
   sim_run sim
     [ at_every 1 (capture_field cfg);
       at_every slice_interval
         (in_volume
            {| vol_center := mkVector3 0 0 (bridge_t cfg / 2);
               vol_size := mkVector3 60000 30000 0 |}
            output_efield_z) ]
     (stop_when_fields_decayed 50 Ez (mkVector3 0 0 (bridge_t cfg / 2))
        1e-6) ;;
   refl_flux <- get_fluxes (refl monitors) ;;
   trans_flux <- get_fluxes (trans monitors) ;;
   let freqs_ghz := map meep_to_ghz freqs in
   let s11 := s11_of refl_flux incident_flux in
   let s11_db := to_db s11 in
   let s21 := s21_of trans_flux incident_flux in
   let s21_db := to_db s21 in
   ' (t, ez_gap) <- get_field_data ;;
   let results :=
     {| freqs_ghz := freqs_ghz; s11_db := s11_db; s21_db := s21_db;
        field_t := t; field_ez := map re ez_gap |} in
   emit (EvSavez (output_dir ++ "/results.npz") results) ;;
   (if plot then emit (EvPlotResults results output_dir) else ret tt) ;;
   ret results)%float.

(** An execution starts with an empty trace and no object created. *)
Definition initial_state (w : world) (fuel : nat) : pstate :=
  {| st_world := w; st_trace := []; st_fuel := fuel; st_sims := 0;
     st_fluxes := 0; st_field_t := []; st_field_ez := [] |}.

End Pipeline.

Arguments Returns {sv A} a st.
Arguments Raises {sv A} e st.
Arguments Diverges {sv A} st.

(** ** The entry point

    The command line of the script, once parsed: [--plot], [--resolution],
    [--output], [--freq-center] and [--freq-width]. *)
Record Args : Type := {
  args_plot : bool;
  args_resolution : Z;
  args_output : string;
  args_freq_center : float;
  args_freq_width : float
}.

(** The defaults the parser declares. *)
Definition default_args : Args := {|
  args_plot := false;
  args_resolution := 5;
  args_output := "output";
  args_freq_center := 5.0;
  args_freq_width := 4.0
|}.

(** [config["resolution"] = args.resolution] and the two assignments that
    follow it. *)
Definition update_config (cfg : Config) (args : Args) : Config := {|
  gap := gap cfg;
  bridge_w := bridge_w cfg;
  bridge_t := bridge_t cfg;
  pad_length := pad_length cfg;
  substrate_r := substrate_r cfg;
  substrate_h := substrate_h cfg;
  wall_thickness := wall_thickness cfg;
  resolution := args_resolution args;
  pml_thickness := pml_thickness cfg;
  freq_center_ghz := args_freq_center args;
  freq_width_ghz := args_freq_width args
|}.

Section EntryPoint.
Context {np : Numpy} {sv : Solver}.

(** The body of [if __name__ == "__main__":]; [timestamp] is the formatted
    clock reading. *)
Definition main (args : Args) (timestamp : string) : M Results :=
  let config := update_config config args in
  let output_dir := (args_output args ++ "/bgr_" ++ timestamp)%string in
  run_simulation config output_dir (args_plot args).

End EntryPoint.



(** ** The exported script

    [crates/meep-export/examples/bridge_gap_resonator_meep.py] is generated
    from the CAD model; its geometry is a list of constants. *)
Module MeepExport.

Definition build_geometry : list GeometricObject :=
  (let geometry := [] in
   let geometry := geometry ++
     [Block (mkVector3 (-13750.000000) 0.000000 250.000000)
            (mkVector3 25000.000000 8000.000000 500.000000) metal] in
   let geometry := geometry ++
     [Block (mkVector3 13750.000000 0.000000 250.000000)
            (mkVector3 25000.000000 8000.000000 500.000000) metal] in
   let geometry := geometry ++
     [Block (mkVector3 0.000000 0.000000 625.000000)
            (mkVector3 6500.000000 4800.000000 250.000000) metal] in
   let geometry := geometry ++
     [Cylinder (mkVector3 0.000000 0.000000 0.000000) 15000.000000
               9600.000000 (mkVector3 0.0 0.0 1.0) (MediumEps 4.4)] in
   let geometry := geometry ++
     [Cylinder (mkVector3 0.000000 0.000000 0.000000) 13000.000000
               10000.000000 (mkVector3 0.0 0.0 1.0) air] in
   geometry)%float.

End MeepExport.

(** ** The exported script, as a whole

    The rest of [bridge_gap_resonator_meep.py]: its constants, its source,
    its two flux monitors and its single run.  The script keeps its results
    in a dictionary whose keys are built from the monitors' names. *)

(** [d[k] = v] on a dictionary kept in insertion order. *)
Fixpoint dict_set {A : Type} (k : string) (v : A) (d : list (string * A))
  : list (string * A) :=
  match d with
  | [] => [(k, v)]
  | (k', v') :: d' =>
      if String.eqb k' k then (k, v) :: d' else (k', v') :: dict_set k v d'
  end.

Module MeepExportScript.

Definition CELL_X : float := 58500.000000.
Definition CELL_Y : float := 36000.000000.
Definition CELL_Z : float := 16000.000000.
Definition RESOLUTION : float := 10.0.
Definition PML_THICKNESS : float := 1000.000000.
Definition FCEN : float := 1.667820e-05.
Definition FWIDTH : float := 1.334256e-05.
Definition UNIT_SCALE : float := 1000.000000.

Definition build_sources : list Source :=
  (let sources := [] in
   let sources := sources ++
     [ {| src := {| frequency := 1.667820e-05; fwidth := 1.334256e-05 |};
          component := Ez;
          src_center := mkVector3 0.000000 0.000000 0.000000;
          src_size := mkVector3 0.000000 0.000000 0.000000 |} ] in
   sources)%float.

Definition get_field_monitors : list (string * Component * Vector3) :=
  [ ("E_center"%string, Ez, mkVector3 0.000000 0.000000 0.000000) ]%float.

Inductive Direction : Type := X.

(** [mp.FluxRegion(center, size, direction, weight)] *)
Record FluxRegion : Type := {
  center : Vector3;
  size : Vector3;
  direction : Direction;
  weight : Z
}.

Record FluxSpec : Type := {
  flux_fcen : float;
  flux_fwidth : float;
  flux_nfreq : Z;
  flux_region : FluxRegion
}.

(** The keyword arguments of [mp.Simulation]; the resolution is a float
    here. *)
Record SimulationArgs : Type := {
  cell_size : Vector3;
  geometry : list GeometricObject;
  sources : list Source;
  boundary_layers : list PML;
  resolution : float;
  default_material : Medium
}.

Inductive StepFunc : Type :=
| at_every (interval : float) (f : StepFunc)
| capture_fields.

Record RunArgs : Type := {
  step_funcs : list StepFunc;
  until_after_sources : StopCond
}.

(** The solver, as this script uses it: one simulation, monitors named by
    their rank. *)
Class Solver : Type := {
  world : Type;
  sv_simulation : SimulationArgs -> world -> world;
  sv_add_flux : nat -> FluxSpec -> world -> world;
  sv_step : world -> world;
  sv_stop : StopCond -> world -> bool;
  sv_due : float -> world -> bool;
  sv_meep_time : world -> float;
  sv_get_field_point : Component -> Vector3 -> world -> complex;
  sv_get_fluxes : nat -> world -> list float;
  sv_get_flux_freqs : nat -> world -> list float
}.

Section Script.
Context {sv : Solver}.

Inductive event : Type :=
| EvMakedirs (path : string)
| EvSimulation (args : SimulationArgs)
| EvAddFlux (flux : nat) (spec : FluxSpec)
| EvRunStart (args : RunArgs)
| EvRunDone
| EvGetFluxFreqs (flux : nat)
| EvGetFluxes (flux : nat)
| EvSavez (path : string) (results : list (string * list float))
| EvPlotResults (field_data : list float * list float) (output_dir : string).

Record pstate : Type := {
  st_world : world;
  st_trace : list event;
  st_fuel : nat;
  st_fluxes : nat;
  st_field_t : list float;
  st_field_ez : list float
}.

Inductive outcome (A : Type) : Type :=
| Returns (a : A) (st : pstate)
| Diverges (st : pstate).

Arguments Returns {A} a st.
Arguments Diverges {A} st.

Definition M (A : Type) : Type := pstate -> outcome A.

Definition ret {A : Type} (a : A) : M A := fun st => Returns a st.

Definition bind {A B : Type} (c : M A) (k : A -> M B) : M B :=
  fun st =>
    match c st with
    | Returns a st' => k a st'
    | Diverges st' => Diverges st'
    end.

Notation "x <- c ;; k" := (bind c (fun x => k))
  (at level 61, c at next level, right associativity).
Notation "' pat <- c ;; k" := (bind c (fun x => match x with pat => k end))
  (at level 61, pat pattern, c at next level, right associativity).
Notation "c ;; k" := (bind c (fun _ => k))
  (at level 61, right associativity).

Definition final_state {A : Type} (o : outcome A) : pstate :=
  match o with
  | Returns _ st => st
  | Diverges st => st
  end.

Definition emit (e : event) : M unit :=
  fun st =>
    Returns tt
      {| st_world := st_world st; st_trace := st_trace st ++ [e];
         st_fuel := st_fuel st; st_fluxes := st_fluxes st;
         st_field_t := st_field_t st; st_field_ez := st_field_ez st |}.

Definition with_world (w : world) (st : pstate) : pstate :=
  {| st_world := w; st_trace := st_trace st; st_fuel := st_fuel st;
     st_fluxes := st_fluxes st; st_field_t := st_field_t st;
     st_field_ez := st_field_ez st |}.

Definition ask_world {A : Type} (f : world -> A) : M A :=
  fun st => Returns (f (st_world st)) st.

(** [mp.Simulation(...)] *)
Definition mp_Simulation (args : SimulationArgs) : M unit :=
  emit (EvSimulation args) ;;
  (fun st => Returns tt (with_world (sv_simulation args (st_world st)) st)).

(** [sim.add_flux(fcen, fwidth, nfreq, region)] *)
Definition add_flux (fcen fwidth : float) (nfreq : Z) (region : FluxRegion)
  : M nat :=
  fun st =>
    let flux := st_fluxes st in
    let spec := {| flux_fcen := fcen; flux_fwidth := fwidth;
                   flux_nfreq := nfreq; flux_region := region |} in
    Returns flux
      {| st_world := sv_add_flux flux spec (st_world st);
         st_trace := st_trace st ++ [EvAddFlux flux spec];
         st_fuel := st_fuel st; st_fluxes := S flux;
         st_field_t := st_field_t st; st_field_ez := st_field_ez st |}.

Definition get_flux_freqs (flux : nat) : M (list float) :=
  emit (EvGetFluxFreqs flux) ;;
  ask_world (sv_get_flux_freqs flux).

Definition get_fluxes (flux : nat) : M (list float) :=
  emit (EvGetFluxes flux) ;;
  ask_world (sv_get_fluxes flux).

(** The [monitors] dictionary, in insertion order. *)
Definition build_flux_monitors (fcen fwidth : float) (nfreq : Z)
  : M (list (string * nat)) :=
  (let monitors := [] in
   m_pos <- add_flux fcen fwidth nfreq
     {| center := mkVector3 26750.000000 0.000000 0.000000;
        size := mkVector3 0.000000 30000.000000 10000.000000;
        direction := X; weight := 1 |} ;;
   let monitors := dict_set "flux_x_pos" m_pos monitors in
   m_neg <- add_flux fcen fwidth nfreq
     {| center := mkVector3 (-26750.000000) 0.000000 0.000000;
        size := mkVector3 0.000000 30000.000000 10000.000000;
        direction := X; weight := -1 |} ;;
   let monitors := dict_set "flux_x_neg" m_neg monitors in
   ret monitors)%float.

(** One call of a step function; [capture_fields] is the closure of
    [run_simulation]. *)
Fixpoint eval_step_func (f : StepFunc) (st : pstate) : pstate :=
  match f with
  | at_every interval g =>
      if sv_due interval (st_world st) then eval_step_func g st else st
  | capture_fields =>
      let center := (mkVector3 0 0 0)%float in
      let ez := sv_get_field_point Ez center (st_world st) in
      {| st_world := st_world st; st_trace := st_trace st;
         st_fuel := st_fuel st; st_fluxes := st_fluxes st;
         st_field_t := st_field_t st ++ [sv_meep_time (st_world st)];
         st_field_ez := st_field_ez st ++ [re ez] |}
  end.

Definition eval_step_funcs (fs : list StepFunc) (st : pstate) : pstate :=
  fold_left (fun s f => eval_step_func f s) fs st.

Definition with_fuel (n : nat) (st : pstate) : pstate :=
  {| st_world := st_world st; st_trace := st_trace st; st_fuel := n;
     st_fluxes := st_fluxes st; st_field_t := st_field_t st;
     st_field_ez := st_field_ez st |}.

Fixpoint run_loop (n : nat) (args : RunArgs) (st : pstate) : outcome unit :=
  if sv_stop (until_after_sources args) (st_world st)
  then Returns tt (with_fuel n (eval_step_funcs (step_funcs args) st))
  else
    match n with
    | O => Diverges (with_fuel O st)
    | S n' =>
        let st1 := eval_step_funcs (step_funcs args) st in
        run_loop n' args (with_world (sv_step (st_world st1)) st1)
    end.

Definition sim_run (fs : list StepFunc) (cond : StopCond) : M unit :=
  let args := {| step_funcs := fs; until_after_sources := cond |} in
  emit (EvRunStart args) ;;
  (fun st => run_loop (st_fuel st) args st) ;;
  emit EvRunDone.

(** [field_data = {"t": [], "ez": []}] *)
Definition new_field_data : M unit :=
  fun st =>
    Returns tt
      {| st_world := st_world st; st_trace := st_trace st;
         st_fuel := st_fuel st; st_fluxes := st_fluxes st;
         st_field_t := []; st_field_ez := [] |}.

Definition get_field_data : M (list float * list float) :=
  fun st => Returns (st_field_t st, st_field_ez st) st.

(** [for name, flux in flux_monitors.items(): ...] *)
Fixpoint extract_fluxes (monitors : list (string * nat))
    (results : list (string * list float)) : M (list (string * list float)) :=
  match monitors with
  | [] => ret results
  | (name, flux) :: rest =>
      freqs <- get_flux_freqs flux ;;
      flux_data <- get_fluxes flux ;;
      let results := dict_set (name ++ "_freqs") freqs results in
      let results := dict_set (name ++ "_flux") flux_data results in
      extract_fluxes rest results
  end.

(** [run_simulation]; [resolution] is the value of the global [RESOLUTION]
    when the function is called. *)
Definition run_simulation (resolution : float) (output_dir : string)
    (plot : bool) : M (list float * list float) :=
  (emit (EvMakedirs output_dir) ;;
   let geometry := MeepExport.build_geometry in
   let sources := build_sources in
   let cell_size := mkVector3 CELL_X CELL_Y CELL_Z in
   let pml_layers := [ {| thickness := PML_THICKNESS |} ] in
   mp_Simulation
     {| cell_size := cell_size; geometry := geometry; sources := sources;
        boundary_layers := pml_layers; resolution := resolution;
        default_material := air |} ;;
   flux_monitors <- build_flux_monitors FCEN FWIDTH 50 ;;
   new_field_data ;;
   sim_run [ at_every 1 capture_fields ]
     (stop_when_fields_decayed 50 Ez (mkVector3 0 0 0) 1e-6) ;;
   ' (t, ez) <- get_field_data ;;
   let results := dict_set "field_t" t [] in
   let results := dict_set "field_ez" ez results in
   results <- extract_fluxes flux_monitors results ;;
   emit (EvSavez (output_dir ++ "/results.npz") results) ;;
   (if plot then emit (EvPlotResults (t, ez) output_dir) else ret tt) ;;
   ret (t, ez))%float.

Definition initial_state (w : world) (fuel : nat) : pstate :=
  {| st_world := w; st_trace := []; st_fuel := fuel; st_fluxes := 0;
     st_field_t := []; st_field_ez := [] |}.

End Script.

Arguments Returns {sv A} a st.
Arguments Diverges {sv A} st.

End MeepExportScript.


(** ** Stand-ins for the collaborators

    Used only to run the script on concrete inputs. *)

(** A stand-in for numpy's [log10]: minus infinity at zero, as numpy has it,
    and zero elsewhere. *)
Definition log10_stub (x : float) : float :=
  (if x =? 0 then neg_infinity else 0)%float.

Definition np_stub : Numpy := {| np_log10 := log10_stub |}.

(** A stand-in for numpy's [log10] that also knows the logarithm of
    [1e-10], which numpy computes exactly. *)
Definition log10_decades (x : float) : float :=
  (if x =? 1e-10 then -10 else log10_stub x)%float.

Definition np_decades : Numpy := {| np_log10 := log10_decades |}.

(** A solver with no field at all: its runs stop according to [decays], and
    monitor [m] reports the flux spectrum [fluxes m]. *)
Definition stub_solver (decays : bool) (fluxes : nat -> list float)
  : Solver := {|
  world := unit;
  FluxData := list float;
  sv_simulation := fun _ _ w => w;
  sv_set_geometry := fun _ _ w => w;
  sv_add_flux := fun _ _ _ w => w;
  sv_load_minus_flux_data := fun _ _ _ w => w;
  sv_step := fun _ w => w;
  sv_stop := fun _ _ _ => decays;
  sv_due := fun _ _ _ => true;
  sv_output_efield_z := fun _ _ w => w;
  sv_meep_time := fun _ _ => 0%float;
  sv_get_field_point := fun _ _ _ _ => {| re := 0; im := 0 |}%float;
  sv_get_fluxes := fun m _ => fluxes m;
  sv_get_flux_freqs := fun _ _ => [];
  sv_reset_meep := fun _ w => w;
  sv_get_flux_data := fun _ m _ => fluxes m
|}.

(** Flux spectra of unequal lengths: one incident bin, two reflected. *)
Definition mismatched_fluxes (m : nat) : list float :=
  match m with
  | 0%nat => [2]%float
  | 1%nat => [1; 1]%float
  | _ => [1]%float
  end.

(** A configuration whose bridge has no thickness. *)
Definition flat_config : Config := {|
  gap := gap config;
  bridge_w := bridge_w config;
  bridge_t := 0%float;
  pad_length := pad_length config;
  substrate_r := substrate_r config;
  substrate_h := substrate_h config;
  wall_thickness := wall_thickness config;
  resolution := resolution config;
  pml_thickness := pml_thickness config;
  freq_center_ghz := freq_center_ghz config;
  freq_width_ghz := freq_width_ghz config
|}.

(** A solver whose runs stop at once, and one whose runs never stop. *)
Definition quiet_solver : Solver := stub_solver true mismatched_fluxes.
Definition ringing_solver : Solver := stub_solver false mismatched_fluxes.

(** A solver whose runs stop at once and whose monitors all report two
    frequency bins. *)
Definition grid_solver : Solver := {|
  world := unit;
  FluxData := list float;
  sv_simulation := fun _ _ w => w;
  sv_set_geometry := fun _ _ w => w;
  sv_add_flux := fun _ _ _ w => w;
  sv_load_minus_flux_data := fun _ _ _ w => w;
  sv_step := fun _ w => w;
  sv_stop := fun _ _ _ => true;
  sv_due := fun _ _ _ => true;
  sv_output_efield_z := fun _ _ w => w;
  sv_meep_time := fun _ _ => 0%float;
  sv_get_field_point := fun _ _ _ _ => {| re := 0; im := 0 |}%float;
  sv_get_fluxes := fun _ _ => [1; 2]%float;
  sv_get_flux_freqs := fun _ _ => [0.01; 0.02]%float;
  sv_reset_meep := fun _ w => w;
  sv_get_flux_data := fun _ _ _ => []
|}.

(** The same for the exported script: its runs stop according to
    [decays]. *)
Definition export_stub_solver (decays : bool) : MeepExportScript.Solver := {|
  MeepExportScript.world := unit;
  MeepExportScript.sv_simulation := fun _ w => w;
  MeepExportScript.sv_add_flux := fun _ _ w => w;
  MeepExportScript.sv_step := fun w => w;
  MeepExportScript.sv_stop := fun _ _ => decays;
  MeepExportScript.sv_due := fun _ _ => true;
  MeepExportScript.sv_meep_time := fun _ => 0%float;
  MeepExportScript.sv_get_field_point :=
    fun _ _ _ => {| re := 0; im := 0 |}%float;
  MeepExportScript.sv_get_fluxes := fun _ _ => [1; 2]%float;
  MeepExportScript.sv_get_flux_freqs := fun _ _ => [0.01; 0.02]%float
|}.

(** ** Vocabulary of the properties *)

(** *** Floats

    [x] is not a NaN: it compares equal to itself. *)
Definition not_nan (x : float) : bool := (x =? x)%float.

(** *** The exact value of a float

    Rounding errors are measured in the real numbers.  [SF2R] is the real
    number a finite binary64 value stands for; the claims about tolerances
    are stated on it. *)

Definition bpow (e : Z) : R := powerRZ 2 e.

Definition SF2R (x : spec_float) : R :=
  match x with
  | S754_finite s m e =>
      ((if s then - IZR (Zpos m) else IZR (Zpos m)) * bpow e)%R
  | _ => 0%R
  end.

Definition F2R (f : float) : R := SF2R (Prim2SF f).

(** The relative tolerance of the unit round trip, [1e-9]. *)
Definition rel_tol : R := (/ 1000000000)%R.

(** *** Locations

    Where a real number lies between two consecutive integers, as the
    rounding of [SpecFloat] records it: on [m], in the lower half of
    [m, m + 1], in the middle, or in the upper half. *)
Definition inbetween_int (m : Z) (l : location) (x : R) : Prop :=
  match l with
  | loc_Exact => x = IZR m
  | loc_Inexact Lt => (IZR m < x < IZR m + / 2)%R
  | loc_Inexact Eq => x = (IZR m + / 2)%R
  | loc_Inexact Gt => (IZR m + / 2 < x < IZR m + 1)%R
  end.

Definition inb (mrs : shr_record) (x : R) : Prop :=
  inbetween_int (shr_m mrs) (loc_of_shr_record mrs) x.

(** *** Runs

    The stopping condition given to both runs. *)
Definition decay_criterion (cfg : Config) : StopCond :=
  stop_when_fields_decayed 50 Ez (mkVector3 0 0 (bridge_t cfg / 2)) 1e-6.

(** Two states with the same trace and the same objects. *)
Definition same_frame {sv : Solver} (st st' : pstate) : Prop :=
  st_trace st' = st_trace st /\ st_sims st' = st_sims st
  /\ st_fluxes st' = st_fluxes st.

(** The world after [k] iterations of the loop of a run with no step
    function. *)
Definition steps {sv : Solver} (sim k : nat) (w : world) : world :=
  Nat.iter k (sv_step sim) w.

(** *** Signs and loops

    The sign bit of a value is clear (a NaN counts as clear). *)
Definition sign_clear (x : spec_float) : bool :=
  match x with
  | S754_zero s | S754_infinity s | S754_finite s _ _ => negb s
  | S754_nan => true
  end.

(** Python's unary minus on a number. *)
Definition num_opp (x : num) : num :=
  match x with
  | PyInt z => PyInt (- z)
  | PyFloat f => PyFloat (- f)
  end.

(** One iteration of the loop of a run: the step functions, then one solver
    step. *)
Definition loop_body {sv : Solver} (sim : nat) (args : RunArgs) (st : pstate)
  : pstate :=
  let st1 := eval_step_funcs sim (step_funcs args) st in
  with_world (sv_step sim (st_world st1)) st1.


(** *** Extents

    No extent of a primitive is negative. *)
Definition nonnegative_extents (g : GeometricObject) : bool :=
  match g with
  | Block _ sz _ => ((0 <=? vx sz) && (0 <=? vy sz) && (0 <=? vz sz))%float
  | Cylinder _ r h _ _ => ((0 <=? r) && (0 <=? h))%float
  end.

(** *** The end of a run

    The state in which a run that stops after [k] iterations of its loop
    ends: the step functions are called once more after the last solver
    step. *)
Definition run_end {sv : Solver} (sim : nat) (args : RunArgs) (k : nat)
    (st : pstate) : pstate :=
  eval_step_funcs sim (step_funcs args) (Nat.iter k (loop_body sim args) st).

(** The same for the exported script. *)
Definition export_loop_body {sv : MeepExportScript.Solver}
    (args : MeepExportScript.RunArgs) (st : MeepExportScript.pstate)
  : MeepExportScript.pstate :=
  let st1 :=
    MeepExportScript.eval_step_funcs (MeepExportScript.step_funcs args) st in
  MeepExportScript.with_world
    (MeepExportScript.sv_step (MeepExportScript.st_world st1)) st1.

Definition export_run_end {sv : MeepExportScript.Solver}
    (args : MeepExportScript.RunArgs) (k : nat)
    (st : MeepExportScript.pstate) : MeepExportScript.pstate :=
  MeepExportScript.eval_step_funcs (MeepExportScript.step_funcs args)
    (Nat.iter k (export_loop_body args) st).

(** * Properties *)

(** ** The script on its own configuration *)

Example config_lengths :
  (gap config, bridge_w config, bridge_t config, pad_length config,
   substrate_r config, substrate_h config, wall_thickness config)
  = (2500, 8000, 500, 25000, 15000, 9600, 2000)%float.
Proof. reflexivity. Qed.

Example config_frequencies :
  meep_to_ghz (ghz_to_meep (freq_center_ghz config)) = 5%float
  /\ meep_to_ghz (ghz_to_meep (freq_width_ghz config)) = 4%float.
Proof. split; reflexivity. Qed.

(** The pads and the bridge of the script are those of the exported script;
    the tube differs in its centre and in the height of its inner cylinder. *)
Example metal_parts_agree :
  firstn 3 (build_geometry config) = firstn 3 MeepExport.build_geometry.
Proof. reflexivity. Qed.

(** With a solver whose runs stop at once, the script makes nineteen calls
    and returns. *)
Example quiet_run :
  exists results st,
    @run_simulation np_stub quiet_solver config "output" false
      (initial_state (sv := quiet_solver) tt 0)
    = Returns results st
    /\ List.length (st_trace st) = 19%nat
    /\ field_t results = [0]%float.
Proof. do 2 eexists. split; [vm_compute; reflexivity|]. split; reflexivity. Qed.

(** ** Lists *)

Lemma zip_length {A B : Type} (xs : list A) (ys : list B) :
  List.length (zip xs ys) = Nat.min (List.length xs) (List.length ys).
Proof.
  revert ys; induction xs as [|x xs IH]; intros [|y ys]; simpl; auto.
Qed.

Lemma zip_nth_error {A B : Type} (xs : list A) (ys : list B) k x y :
  nth_error xs k = Some x -> nth_error ys k = Some y ->
  nth_error (zip xs ys) k = Some (x, y).
Proof.
  revert ys k; induction xs as [|a xs IH]; intros [|b ys] [|k]; simpl;
    try discriminate.
  - intros [= ->] [= ->]; reflexivity.
  - apply IH.
Qed.

Section SParameterFacts.
Context {np : Numpy}.

Lemma s11_of_length refl_flux incident_flux :
  List.length (s11_of refl_flux incident_flux)
  = Nat.min (List.length refl_flux) (List.length incident_flux).
Proof. unfold s11_of. rewrite length_map. apply zip_length. Qed.

Lemma s21_of_length trans_flux incident_flux :
  List.length (s21_of trans_flux incident_flux)
  = Nat.min (List.length trans_flux) (List.length incident_flux).
Proof. unfold s21_of. rewrite length_map. apply zip_length. Qed.

Lemma to_db_length ss : List.length (to_db ss) = List.length ss.
Proof. apply length_map. Qed.

Lemma s11_of_nth refl_flux incident_flux k r i :
  nth_error refl_flux k = Some r -> nth_error incident_flux k = Some i ->
  nth_error (s11_of refl_flux incident_flux) k
  = Some (if float_ne0 i then PyFloat (- r / i)%float else PyInt 0).
Proof.
  intros Hr Hi. unfold s11_of.
  rewrite nth_error_map, (zip_nth_error _ _ _ _ _ Hr Hi). reflexivity.
Qed.

Lemma s21_of_nth trans_flux incident_flux k t i :
  nth_error trans_flux k = Some t -> nth_error incident_flux k = Some i ->
  nth_error (s21_of trans_flux incident_flux) k
  = Some (if float_ne0 i then PyFloat (t / i)%float else PyInt 0).
Proof.
  intros Ht Hi. unfold s21_of.
  rewrite nth_error_map, (zip_nth_error _ _ _ _ _ Ht Hi). reflexivity.
Qed.

Lemma to_db_nth ss k s :
  nth_error ss k = Some s -> nth_error (to_db ss) k = Some (db_of s).
Proof. intros H. unfold to_db. rewrite nth_error_map, H. reflexivity. Qed.

End SParameterFacts.

(** ** Zero ratios in binary64 *)

Lemma eqb0_zero x : (x =? 0)%float = true -> exists s, Prim2SF x = S754_zero s.
Proof.
  rewrite eqb_spec. change (Prim2SF 0) with (S754_zero false).
  destruct (Prim2SF x) as [s|s| |s m e]; try discriminate.
  - eauto.
  - destruct s; discriminate.
  - destruct s; discriminate.
Qed.

(** A zero numerator over a nonzero denominator that is not a NaN gives a
    zero quotient. *)
Lemma zero_div_eqb0 x i :
  (x =? 0)%float = true -> float_ne0 i = true -> not_nan i = true ->
  (x / i =? 0)%float = true.
Proof.
  intros Hx Hi Hn. destruct (eqb0_zero x Hx) as [s Hs].
  unfold float_ne0, not_nan in *. rewrite eqb_spec in *.
  rewrite div_spec, Hs. change (Prim2SF 0) with (S754_zero false) in *.
  destruct (Prim2SF i) as [s'|s'| |s' m e]; try discriminate; reflexivity.
Qed.

Lemma opp_eqb0 x : (x =? 0)%float = true -> (- x =? 0)%float = true.
Proof.
  intros Hx. destruct (eqb0_zero x Hx) as [s Hs].
  rewrite eqb_spec, opp_spec, Hs. reflexivity.
Qed.

(** ** Rounding in binary64 (claims C7 and C8)

    The primitive operations are specified by [SpecFloat]; what follows
    bounds the error of one division, one multiplication and one addition
    whose result is a normal number. *)

Section Binary64Rounding.
Local Open Scope R_scope.

(** *** Powers of two *)

Lemma bpow_pos e : 0 < bpow e.
Proof. apply powerRZ_lt. lra. Qed.

Lemma bpow_add a b : bpow (a + b) = bpow a * bpow b.
Proof. apply powerRZ_add. lra. Qed.

Lemma bpow_IZR n : (0 <= n)%Z -> bpow n = IZR (2 ^ n).
Proof.
  intros Hn. unfold bpow.
  rewrite <- (Z2Nat.id n Hn) at 1 2.
  rewrite <- pow_powerRZ, pow_IZR. reflexivity.
Qed.

Lemma bpow_ge_1 n : (0 <= n)%Z -> 1 <= bpow n.
Proof.
  intros Hn. rewrite (bpow_IZR n Hn). apply IZR_le.
  assert (0 < 2 ^ n)%Z by (apply Z.pow_pos_nonneg; lia). lia.
Qed.

Lemma bpow_le a b : (a <= b)%Z -> bpow a <= bpow b.
Proof.
  intros Hab. replace b with (a + (b - a))%Z by lia. rewrite bpow_add.
  pose proof (bpow_pos a). pose proof (bpow_ge_1 (b - a) ltac:(lia)). nra.
Qed.

Lemma bpow_opp a : bpow (- a) = / bpow a.
Proof. apply powerRZ_neg'. Qed.

Lemma bpow_succ a : bpow (a + 1) = 2 * bpow a.
Proof. rewrite bpow_add. unfold bpow at 2. simpl. lra. Qed.

(** *** The number of binary digits *)

Lemma digits2_pos_size p : digits2_pos p = Pos.size p.
Proof. induction p; simpl; congruence. Qed.

Lemma Zdigits2_log2 p : Zdigits2 (Zpos p) = (Z.log2 (Zpos p) + 1)%Z.
Proof.
  unfold Zdigits2. rewrite digits2_pos_size.
  destruct p; simpl; try rewrite Pos2Z.inj_succ; lia.
Qed.

Lemma Zdigits2_bounds p :
  (2 ^ (Zdigits2 (Zpos p) - 1) <= Zpos p < 2 ^ Zdigits2 (Zpos p))%Z.
Proof.
  rewrite Zdigits2_log2.
  pose proof (Z.log2_spec (Zpos p) eq_refl) as H.
  replace (Z.log2 (Zpos p) + 1 - 1)%Z with (Z.log2 (Zpos p)) by lia.
  replace (Z.log2 (Zpos p) + 1)%Z with (Z.succ (Z.log2 (Zpos p))) by lia.
  exact H.
Qed.

Lemma Zdigits2_unique p k :
  (2 ^ (k - 1) <= Zpos p < 2 ^ k)%Z -> (1 <= k)%Z -> Zdigits2 (Zpos p) = k.
Proof.
  intros H Hk. rewrite Zdigits2_log2.
  rewrite (Z.log2_unique (Zpos p) (k - 1)); try lia.
  replace (Z.succ (k - 1)) with k by lia. exact H.
Qed.

(** *** Right shifts

    A shift by one bit halves the located value; [shr] iterates it. *)

Lemma IZR_xI p : IZR (Zpos p~1) = 2 * IZR (Zpos p) + 1.
Proof. rewrite Pos2Z.inj_xI, plus_IZR, mult_IZR. reflexivity. Qed.

Lemma IZR_xO p : IZR (Zpos p~0) = 2 * IZR (Zpos p).
Proof. rewrite Pos2Z.inj_xO, mult_IZR. reflexivity. Qed.

Lemma shr_1_inb mrs x :
  (0 <= shr_m mrs)%Z -> inb mrs x ->
  inb (shr_1 mrs) (x / 2) /\ shr_m (shr_1 mrs) = (shr_m mrs / 2)%Z.
Proof.
  intros Hm H. split.
  - destruct mrs as [m r s]. unfold inb in *. simpl in Hm.
    destruct m as [|p|p]; [|destruct p as [p|p|]|lia];
      destruct r, s;
      cbn [shr_1 inbetween_int loc_of_shr_record shr_m shr_r shr_s orb] in *;
      try rewrite IZR_xI in H; try rewrite IZR_xO in H; lra.
  - rewrite <- Z.div2_div. destruct mrs as [m r s]. simpl in *.
    destruct m as [|p|p]; [reflexivity|destruct p; reflexivity|lia].
Qed.

Lemma iter_pos_nat {A : Type} (f : A -> A) p : forall x,
  SpecFloat.iter_pos f p x = Nat.iter (Pos.to_nat p) f x.
Proof.
  induction p as [p IH|p IH|]; intros x; cbn [SpecFloat.iter_pos].
  - rewrite !IH, Pos2Nat.inj_xI.
    replace (S (2 * Pos.to_nat p)) with (S (Pos.to_nat p + Pos.to_nat p)) by lia.
    rewrite Nat.iter_succ_r, Nat.iter_add. reflexivity.
  - rewrite !IH, Pos2Nat.inj_xO.
    replace (2 * Pos.to_nat p)%nat with (Pos.to_nat p + Pos.to_nat p)%nat by lia.
    rewrite Nat.iter_add. reflexivity.
  - reflexivity.
Qed.

Lemma iter_shr_1_inb n : forall mrs x,
  (0 <= shr_m mrs)%Z -> inb mrs x ->
  inb (Nat.iter n shr_1 mrs) (x / bpow (Z.of_nat n))
  /\ shr_m (Nat.iter n shr_1 mrs) = (shr_m mrs / 2 ^ Z.of_nat n)%Z.
Proof.
  induction n as [|n IH]; intros mrs x Hm H.
  - simpl. unfold bpow. simpl. rewrite Z.div_1_r.
    split; [|reflexivity]. replace (x / 1) with x by lra. exact H.
  - destruct (IH mrs x Hm H) as [H1 H2].
    assert (0 <= shr_m (Nat.iter n shr_1 mrs))%Z as Hm'.
    { rewrite H2. apply Z.div_pos; [exact Hm|].
      apply Z.pow_pos_nonneg; lia. }
    destruct (shr_1_inb _ _ Hm' H1) as [H3 H4].
    rewrite Nat2Z.inj_succ. unfold Z.succ.
    rewrite bpow_succ. simpl Nat.iter.
    split.
    + replace (x / (2 * bpow (Z.of_nat n))) with (x / bpow (Z.of_nat n) / 2).
      * exact H3.
      * pose proof (bpow_pos (Z.of_nat n)). field. lra.
    + rewrite H4, H2. rewrite Z.pow_add_r by lia.
      assert (0 < 2 ^ Z.of_nat n)%Z by (apply Z.pow_pos_nonneg; lia).
      rewrite Z.div_div; try lia. change (2 ^ 1)%Z with 2%Z. reflexivity.
Qed.

(** *** Rounding to nearest *)

(** The integer chosen by [round_nearest_even] is within one half of the
    located value. *)
Lemma round_nearest_even_near m l x :
  inbetween_int m l x ->
  Rabs (IZR (round_nearest_even m l) - x) <= / 2
  /\ (m <= round_nearest_even m l <= m + 1)%Z.
Proof.
  intros H. destruct l as [|[| |]]; simpl in *.
  - subst x. split; [|lia]. rewrite Rminus_diag, Rabs_R0. lra.
  - subst x. destruct (Z.even m); split; try lia;
      rewrite ?plus_IZR; apply Rabs_le; lra.
  - split; [|lia]. apply Rabs_le; lra.
  - split; [|lia]. rewrite plus_IZR. apply Rabs_le; lra.
Qed.

Lemma fexp64 e : fexp prec emax e = Z.max (e - 53) (-1074).
Proof. reflexivity. Qed.

Lemma loc_of_shr_record_of_loc m l :
  loc_of_shr_record (shr_record_of_loc m l) = l.
Proof. destruct l as [|[| |]]; reflexivity. Qed.

Lemma shr_m_shr_record_of_loc m l : shr_m (shr_record_of_loc m l) = m.
Proof. destruct l as [|[| |]]; reflexivity. Qed.

Lemma inbetween_int_ge m l x : inbetween_int m l x -> IZR m <= x.
Proof. destruct l as [|[| |]]; simpl; lra. Qed.

Lemma Rabs_le_inv x a : Rabs x <= a -> - a <= x <= a.
Proof. unfold Rabs. destruct (Rcase_abs x); lra. Qed.

Lemma Rabs_scale a c b : 0 < b -> Rabs (a * b - c * b) = Rabs (a - c) * b.
Proof.
  intros Hb. rewrite <- Rmult_minus_distr_r, Rabs_mult.
  rewrite (Rabs_pos_eq b); lra.
Qed.

(** The first shift of [binary_round_aux] brings a mantissa of at least 53
    digits to exactly 53 digits and keeps track of what it drops. *)
Lemma shr_fexp_normal p ex lx x :
  inbetween_int (Zpos p) lx x ->
  (53 <= Zdigits2 (Zpos p))%Z ->
  (-1074 <= Zdigits2 (Zpos p) + ex - 53)%Z ->
  exists mrs,
    shr_fexp prec emax (Zpos p) ex lx
    = (mrs, (Zdigits2 (Zpos p) + ex - 53)%Z)
    /\ inb mrs (x / bpow (Zdigits2 (Zpos p) - 53))
    /\ (2 ^ 52 <= shr_m mrs < 2 ^ 53)%Z.
Proof.
  intros Hx Hd He. pose proof (Zdigits2_bounds p) as Hb.
  set (d := Zdigits2 (Zpos p)) in *.
  unfold shr_fexp. fold d. rewrite fexp64.
  replace (Z.max (d + ex - 53) (-1074) - ex)%Z with (d - 53)%Z by lia.
  unfold shr. destruct (d - 53)%Z as [|n|n] eqn:En; [| |lia].
  - exists (shr_record_of_loc (Zpos p) lx). repeat split.
    + f_equal. lia.
    + unfold inb. rewrite shr_m_shr_record_of_loc, loc_of_shr_record_of_loc.
      unfold bpow. simpl. replace (x / 1) with x by lra. exact Hx.
    + rewrite shr_m_shr_record_of_loc.
      replace (d - 1)%Z with 52%Z in Hb by lia. apply Hb.
    + rewrite shr_m_shr_record_of_loc. replace d with 53%Z in Hb by lia.
      apply Hb.
  - rewrite iter_pos_nat.
    destruct (iter_shr_1_inb (Pos.to_nat n) (shr_record_of_loc (Zpos p) lx) x)
      as [H1 H2].
    + rewrite shr_m_shr_record_of_loc. lia.
    + unfold inb. rewrite shr_m_shr_record_of_loc, loc_of_shr_record_of_loc.
      exact Hx.
    + rewrite positive_nat_Z in H1, H2.
      rewrite shr_m_shr_record_of_loc in H2.
      eexists. split; [f_equal; lia|]. split; [exact H1|].
      rewrite H2.
      assert (0 < 2 ^ Zpos n)%Z by (apply Z.pow_pos_nonneg; lia).
      replace (d - 1)%Z with (52 + Zpos n)%Z in Hb by lia.
      replace d with (53 + Zpos n)%Z in Hb by lia.
      rewrite !Z.pow_add_r in Hb by lia.
      split.
      * apply Z.div_le_lower_bound; lia.
      * apply Z.div_lt_upper_bound; lia.
Qed.

(** Rounding a positive value located by a mantissa of at least 53 digits,
    when the result is in the normal range and below the overflow
    threshold: the result is a normal number within half a unit in the last
    place. *)
Lemma binary_round_aux_normal sx p ex lx x :
  inbetween_int (Zpos p) lx x ->
  (53 <= Zdigits2 (Zpos p))%Z ->
  (-1074 <= Zdigits2 (Zpos p) + ex - 53 <= 970)%Z ->
  exists m e,
    binary_round_aux prec emax sx (Zpos p) ex lx = S754_finite sx m e
    /\ (2 ^ 52 <= Zpos m < 2 ^ 53)%Z
    /\ (Zdigits2 (Zpos p) + ex - 53 <= e <= Zdigits2 (Zpos p) + ex - 52)%Z
    /\ Rabs (IZR (Zpos m) * bpow e - x * bpow ex)
       <= / 2 * bpow (Zdigits2 (Zpos p) + ex - 53).
Proof.
  intros Hx Hd He.
  destruct (shr_fexp_normal p ex lx x Hx Hd ltac:(lia))
    as (mrs & E & Hinb & Hm).
  set (d := Zdigits2 (Zpos p)) in *. set (e0 := (d + ex - 53)%Z) in *.
  unfold binary_round_aux. rewrite E.
  destruct (round_nearest_even_near _ _ _ Hinb) as [Hr Hrm].
  set (m2 := round_nearest_even (shr_m mrs) (loc_of_shr_record mrs)) in *.
  assert (Hval : x * bpow ex = x / bpow (d - 53) * bpow e0).
  { unfold e0. replace (d + ex - 53)%Z with ((d - 53) + ex)%Z by lia.
    rewrite bpow_add. pose proof (bpow_pos (d - 53)). field. lra. }
  assert (Hcase : (m2 < 2 ^ 53 \/ m2 = 2 ^ 53)%Z) by lia.
  destruct m2 as [|q|q] eqn:Em2; [lia| |lia].
  destruct Hcase as [Hlt | Heq].
  - assert (Hdq : Zdigits2 (Zpos q) = 53%Z)
      by (apply Zdigits2_unique; lia).
    unfold shr_fexp. rewrite Hdq, fexp64.
    replace (Z.max (53 + e0 - 53) (-1074) - e0)%Z with 0%Z by lia.
    cbn [shr shr_record_of_loc shr_m].
    replace (e0 <=? emax - prec)%Z with true
      by (symmetry; apply Z.leb_le; change (emax - prec)%Z with 971%Z; lia).
    exists q, e0. split; [reflexivity|]. split; [lia|]. split; [lia|].
    rewrite Hval, Rabs_scale by apply bpow_pos.
    pose proof (bpow_pos e0). nra.
  - assert (Hdq : Zdigits2 (Zpos q) = 54%Z)
      by (apply Zdigits2_unique; lia).
    unfold shr_fexp. rewrite Hdq, fexp64.
    replace (Z.max (54 + e0 - 53) (-1074) - e0)%Z with 1%Z by lia.
    injection Heq as ->.
    cbn [shr shr_record_of_loc shr_m SpecFloat.iter_pos shr_1 Z.pow Z.pow_pos
         Pos.iter Z.mul Pos.mul].
    replace (e0 + 1 <=? emax - prec)%Z with true
      by (symmetry; apply Z.leb_le; change (emax - prec)%Z with 971%Z; lia).
    eexists; exists (e0 + 1)%Z. split; [reflexivity|]. split; [lia|].
    split; [lia|].
    rewrite bpow_succ.
    replace (IZR 4503599627370496 * (2 * bpow e0))
      with (IZR 9007199254740992 * bpow e0) by lra.
    rewrite Hval, Rabs_scale by apply bpow_pos.
    pose proof (bpow_pos e0). nra.
Qed.

(** The same, as a relative error: at most [2^-53] of the value. *)
Lemma binary_round_aux_rel sx p ex lx x :
  inbetween_int (Zpos p) lx x ->
  (53 <= Zdigits2 (Zpos p))%Z ->
  (-1074 <= Zdigits2 (Zpos p) + ex - 53 <= 970)%Z ->
  exists m e,
    binary_round_aux prec emax sx (Zpos p) ex lx = S754_finite sx m e
    /\ (2 ^ 52 <= Zpos m < 2 ^ 53)%Z
    /\ (Zdigits2 (Zpos p) + ex - 53 <= e <= Zdigits2 (Zpos p) + ex - 52)%Z
    /\ Rabs (IZR (Zpos m) * bpow e - x * bpow ex)
       <= bpow (-53) * (x * bpow ex).
Proof.
  intros Hx Hd He.
  destruct (binary_round_aux_normal sx p ex lx x Hx Hd He)
    as (m & e & E & Hm & Hme & Herr).
  exists m, e. repeat split; try assumption; try lia.
  eapply Rle_trans; [exact Herr|].
  pose proof (inbetween_int_ge _ _ _ Hx) as Hge.
  pose proof (Zdigits2_bounds p) as [Hlow _].
  set (d := Zdigits2 (Zpos p)) in *.
  apply IZR_le in Hlow. rewrite <- bpow_IZR in Hlow by lia.
  replace (d + ex - 53)%Z with ((-53) + ((d - 1) + (ex + 1)))%Z by lia.
  rewrite !bpow_add.
  replace (bpow 1) with 2 by (unfold bpow; simpl; lra).
  pose proof (bpow_pos (-53)). pose proof (bpow_pos (d - 1)).
  pose proof (bpow_pos ex).
  assert (bpow (d - 1) * bpow ex <= x * bpow ex) by nra.
  nra.
Qed.

(** *** Division and multiplication *)

(** The remainder of a division locates the quotient. *)
Lemma new_location_inbetween nb k q :
  (0 <= k < nb)%Z ->
  inbetween_int q (new_location nb k) (IZR q + IZR k / IZR nb).
Proof.
  intros Hk.
  assert (HN : 0 < IZR nb) by (apply IZR_lt; lia).
  assert (HK : IZR k / IZR nb * IZR nb = IZR k) by (field; lra).
  assert (HK0 : 0 <= IZR k) by (apply IZR_le; lia).
  assert (HKN : IZR k < IZR nb) by (apply IZR_lt; lia).
  unfold new_location.
  destruct (Z.even nb) eqn:Ev;
    unfold new_location_even, new_location_odd;
    destruct (Z.eqb_spec k 0) as [-> | Hk0]; try (simpl; lra);
    assert (HKpos : 0 < IZR k) by (apply IZR_lt; lia).
  - destruct (Z.compare_spec (2 * k) nb) as [E | E | E]; simpl.
    + apply (f_equal IZR) in E. rewrite mult_IZR in E.
      assert (IZR k / IZR nb = / 2) as -> by (rewrite <- E; field; lra).
      reflexivity.
    + apply IZR_lt in E. rewrite mult_IZR in E. nra.
    + apply IZR_lt in E. rewrite mult_IZR in E. nra.
  - assert (Hodd : exists j, nb = (2 * j + 1)%Z)
      by (apply Z.odd_spec; rewrite <- Z.negb_even, Ev; reflexivity).
    destruct Hodd as [j Hj].
    destruct (Z.compare_spec (2 * k + 1) nb) as [E | E | E]; simpl.
    + assert (E' : (2 * k < nb)%Z) by lia.
      apply IZR_lt in E'. rewrite mult_IZR in E'. nra.
    + assert (E' : (2 * k < nb)%Z) by lia.
      apply IZR_lt in E'. rewrite mult_IZR in E'. nra.
    + assert (E' : (nb < 2 * k)%Z) by lia.
      apply IZR_lt in E'. rewrite mult_IZR in E'. nra.
Qed.

Lemma Zdigits2_53 p :
  (2 ^ 52 <= Zpos p < 2 ^ 53)%Z -> Zdigits2 (Zpos p) = 53%Z.
Proof. intros H. apply Zdigits2_unique; [exact H | lia]. Qed.

(** Division of two normal numbers, quotient in the normal range. *)
Lemma SFdiv_normal sx mx ex sy my ey :
  (2 ^ 52 <= Zpos mx < 2 ^ 53)%Z ->
  (2 ^ 52 <= Zpos my < 2 ^ 53)%Z ->
  (-1021 <= ex - ey <= 1022)%Z ->
  exists m e,
    SFdiv prec emax (S754_finite sx mx ex) (S754_finite sy my ey)
    = S754_finite (xorb sx sy) m e
    /\ (2 ^ 52 <= Zpos m < 2 ^ 53)%Z
    /\ (ex - ey - 53 <= e <= ex - ey - 51)%Z
    /\ Rabs (IZR (Zpos m) * bpow e
             - IZR (Zpos mx) * bpow ex / (IZR (Zpos my) * bpow ey))
       <= bpow (-53) * (IZR (Zpos mx) * bpow ex / (IZR (Zpos my) * bpow ey)).
Proof.
  intros Hmx Hmy He.
  unfold SFdiv, SFdiv_core_binary.
  rewrite (Zdigits2_53 mx Hmx), (Zdigits2_53 my Hmy), fexp64.
  replace (Z.min (Z.max (53 + ex - (53 + ey) - 53) (-1074)) (ex - ey))
    with (ex - ey - 53)%Z by lia.
  replace (ex - ey - (ex - ey - 53))%Z with 53%Z by lia.
  rewrite Z.shiftl_mul_pow2 by lia.
  pose proof (Z_div_mod (Zpos mx * 2 ^ 53) (Zpos my) ltac:(lia)) as Hdm.
  destruct (Z.div_eucl (Zpos mx * 2 ^ 53) (Zpos my)) as [q r].
  destruct Hdm as [Hdm Hr].
  assert (Hq : (2 ^ 52 <= q < 2 ^ 54)%Z) by nia.
  destruct q as [|q|q]; [lia| |lia].
  assert (Hdq : (53 <= Zdigits2 (Zpos q) <= 54)%Z).
  { destruct (Z_lt_le_dec (Zpos q) (2 ^ 53)) as [Hlt | Hge].
    - rewrite (Zdigits2_53 q); lia.
    - rewrite (Zdigits2_unique q 54); lia. }
  destruct (binary_round_aux_rel (xorb sx sy) q (ex - ey - 53)
              (new_location (Zpos my) r)
              (IZR (Zpos q) + IZR r / IZR (Zpos my))
              (new_location_inbetween _ _ _ Hr) ltac:(lia) ltac:(lia))
    as (m & e & E & Hm & Hme & Herr).
  exists m, e. split; [exact E|]. split; [exact Hm|]. split; [lia|].
  assert (Hval : (IZR (Zpos q) + IZR r / IZR (Zpos my)) * bpow (ex - ey - 53)
                 = IZR (Zpos mx) * bpow ex / (IZR (Zpos my) * bpow ey)).
  { replace (ex - ey - 53)%Z with (ex + (- ey + - (53)))%Z by lia.
    rewrite !bpow_add, !bpow_opp, (bpow_IZR 53) by lia.
    apply (f_equal IZR) in Hdm. rewrite plus_IZR, !mult_IZR in Hdm.
    pose proof (bpow_pos ey).
    assert (0 < IZR (Zpos my)) by (apply IZR_lt; lia).
    assert (0 < IZR (2 ^ 53)) by (apply IZR_lt; lia).
    assert (HMX : IZR (Zpos mx)
                  = (IZR (Zpos my) * IZR (Zpos q) + IZR r) / IZR (2 ^ 53))
      by (rewrite <- Hdm; field; lra).
    rewrite HMX. field. lra. }
  rewrite Hval in Herr. exact Herr.
Qed.

(** Multiplication of two normal numbers, product in the normal range. *)
Lemma SFmul_normal sx mx ex sy my ey :
  (2 ^ 52 <= Zpos mx < 2 ^ 53)%Z ->
  (2 ^ 52 <= Zpos my < 2 ^ 53)%Z ->
  (-1126 <= ex + ey <= 917)%Z ->
  exists m e,
    SFmul prec emax (S754_finite sx mx ex) (S754_finite sy my ey)
    = S754_finite (xorb sx sy) m e
    /\ (2 ^ 52 <= Zpos m < 2 ^ 53)%Z
    /\ (ex + ey + 52 <= e <= ex + ey + 54)%Z
    /\ Rabs (IZR (Zpos m) * bpow e
             - IZR (Zpos mx) * bpow ex * (IZR (Zpos my) * bpow ey))
       <= bpow (-53) * (IZR (Zpos mx) * bpow ex * (IZR (Zpos my) * bpow ey)).
Proof.
  intros Hmx Hmy He. unfold SFmul.
  assert (Hp : (2 ^ 104 <= Zpos (mx * my) < 2 ^ 106)%Z)
    by (rewrite Pos2Z.inj_mul; nia).
  assert (Hd : (105 <= Zdigits2 (Zpos (mx * my)) <= 106)%Z).
  { destruct (Z_lt_le_dec (Zpos (mx * my)) (2 ^ 105)) as [Hlt | Hge].
    - rewrite (Zdigits2_unique (mx * my) 105); lia.
    - rewrite (Zdigits2_unique (mx * my) 106); lia. }
  destruct (binary_round_aux_rel (xorb sx sy) (mx * my) (ex + ey) loc_Exact
              (IZR (Zpos (mx * my))) eq_refl ltac:(lia) ltac:(lia))
    as (m & e & E & Hm & Hme & Herr).
  exists m, e. split; [exact E|]. split; [exact Hm|]. split; [lia|].
  rewrite Pos2Z.inj_mul, mult_IZR, bpow_add in Herr.
  replace (IZR (Zpos mx) * bpow ex * (IZR (Zpos my) * bpow ey))
    with (IZR (Zpos mx) * IZR (Zpos my) * (bpow ex * bpow ey)) by ring.
  exact Herr.
Qed.

(** *** Primitive floats *)

(** A float between two positive normal bounds is a positive normal number
    whose exponent lies between theirs. *)
Lemma float_between lo hi f mlo elo mhi ehi :
  Prim2SF lo = S754_finite false mlo elo ->
  Prim2SF hi = S754_finite false mhi ehi ->
  (-1074 < elo)%Z ->
  (lo <=? f)%float = true -> (f <=? hi)%float = true ->
  exists m e,
    Prim2SF f = S754_finite false m e
    /\ (2 ^ 52 <= Zpos m < 2 ^ 53)%Z
    /\ (elo <= e <= ehi)%Z.
Proof.
  intros Hlo Hhi Helo H1 H2.
  rewrite leb_spec in H1, H2. rewrite Hlo in H1. rewrite Hhi in H2.
  pose proof (Prim2SF_valid f) as Hv.
  destruct (Prim2SF f) as [s|s| |s m e].
  - discriminate H1.
  - destruct s; [discriminate H1 | discriminate H2].
  - discriminate H1.
  - destruct s; [discriminate H1|].
    unfold SFleb, SFcompare in H1, H2.
    assert (elo <= e)%Z
      by (destruct (Z.compare_spec elo e); [lia | lia | discriminate]).
    assert (e <= ehi)%Z
      by (destruct (Z.compare_spec e ehi); [lia | lia | discriminate]).
    exists m, e. split; [reflexivity|]. split; [|lia].
    unfold valid_binary, bounded, canonical_mantissa in Hv.
    apply andb_prop in Hv. destruct Hv as [Hv _].
    apply Z.eqb_eq in Hv. rewrite fexp64 in Hv.
    pose proof (Zdigits2_bounds m) as Hb.
    replace (Zdigits2 (Zpos m)) with 53%Z in Hb
      by (unfold Zdigits2; lia).
    exact Hb.
Qed.

(** *** Addition and comparison *)


Lemma iter_xO mx d : Zpos (Pos.iter xO mx d) = (Zpos mx * 2 ^ Zpos d)%Z.
Proof.
  induction d as [|d IH] using Pos.peano_ind.
  - simpl. rewrite Pos2Z.inj_xO. lia.
  - rewrite Pos.iter_succ, Pos2Z.inj_xO, IH, Pos2Z.inj_succ, Z.pow_succ_r by lia.
    lia.
Qed.

Lemma shl_align_value mx ex ex' :
  exists m' e',
    shl_align mx ex ex' = (m', e')
    /\ e' = Z.min ex ex'
    /\ Zpos m' = (Zpos mx * 2 ^ (ex - e'))%Z.
Proof.
  unfold shl_align. destruct (ex' - ex)%Z as [|d|d] eqn:E.
  - exists mx, ex. split; [reflexivity|]. split; [lia|].
    rewrite Z.sub_diag. simpl. lia.
  - exists mx, ex. split; [reflexivity|]. split; [lia|].
    rewrite Z.sub_diag. simpl. lia.
  - exists (Pos.iter xO mx d), ex'. split; [reflexivity|]. split; [lia|].
    rewrite iter_xO. f_equal. f_equal. lia.
Qed.

Lemma Zdigits2_shift p k q :
  (0 <= k)%Z -> Zpos q = (Zpos p * 2 ^ k)%Z ->
  Zdigits2 (Zpos q) = (Zdigits2 (Zpos p) + k)%Z.
Proof.
  intros Hk Hq. pose proof (Zdigits2_bounds p) as Hb.
  assert (1 <= Zdigits2 (Zpos p))%Z by (unfold Zdigits2; lia).
  assert (0 < 2 ^ k)%Z by (apply Z.pow_pos_nonneg; lia).
  apply Zdigits2_unique; [|lia]. rewrite Hq.
  replace (Zdigits2 (Zpos p) + k - 1)%Z with ((Zdigits2 (Zpos p) - 1) + k)%Z
    by lia.
  rewrite !Z.pow_add_r by lia. nia.
Qed.

Lemma IZR_digits_bounds p :
  bpow (Zdigits2 (Zpos p) - 1) <= IZR (Zpos p) < bpow (Zdigits2 (Zpos p)).
Proof.
  pose proof (Zdigits2_bounds p) as [H1 H2].
  assert (1 <= Zdigits2 (Zpos p))%Z by (unfold Zdigits2; lia).
  rewrite !bpow_IZR by lia. split; [apply IZR_le | apply IZR_lt]; assumption.
Qed.

Lemma bpow_lt_inv a b : bpow a < bpow b -> (a < b)%Z.
Proof.
  intros H. destruct (Z_lt_le_dec a b) as [Hlt | Hge]; [exact Hlt|].
  pose proof (bpow_le b a Hge). lra.
Qed.

(** Rounding an exact positive value [s * 2^ez] of the normal range. *)
Lemma binary_round_rel s ez :
  bpow (-1022) <= IZR (Zpos s) * bpow ez < bpow 1023 ->
  exists m e,
    binary_round prec emax false s ez = S754_finite false m e
    /\ (2 ^ 52 <= Zpos m < 2 ^ 53)%Z
    /\ (-1074 <= e)%Z
    /\ Rabs (IZR (Zpos m) * bpow e - IZR (Zpos s) * bpow ez)
       <= bpow (-53) * (IZR (Zpos s) * bpow ez).
Proof.
  intros [Hlo Hhi]. unfold binary_round.
  change (Zpos (digits2_pos s)) with (Zdigits2 (Zpos s)).
  pose proof (IZR_digits_bounds s) as [Hd1 Hd2].
  set (d := Zdigits2 (Zpos s)) in *.
  assert (HD : (-1021 <= d + ez <= 1023)%Z).
  { pose proof (bpow_pos ez).
    split.
    - assert (bpow (-1022) < bpow (d + ez))
        by (rewrite bpow_add; nra).
      apply bpow_lt_inv in H0. lia.
    - assert (bpow (d - 1 + ez) < bpow 1023)
        by (rewrite bpow_add; nra).
      apply bpow_lt_inv in H0. lia. }
  rewrite fexp64. replace (Z.max (d + ez - 53) (-1074)) with (d + ez - 53)%Z
    by lia.
  destruct (shl_align_value s ez (d + ez - 53)) as (mz & ez' & E & Hez' & Hmz).
  rewrite E.
  assert (Hdz : Zdigits2 (Zpos mz) = (d + (ez - ez'))%Z)
    by (apply Zdigits2_shift; [lia | exact Hmz]).
  destruct (binary_round_aux_rel false mz ez' loc_Exact (IZR (Zpos mz))
              eq_refl ltac:(lia) ltac:(lia))
    as (m & e & E' & Hm & Hme & Herr).
  exists m, e. split; [exact E'|]. split; [exact Hm|]. split; [lia|].
  assert (Hval : IZR (Zpos mz) * bpow ez' = IZR (Zpos s) * bpow ez).
  { rewrite Hmz, mult_IZR, <- bpow_IZR by lia.
    replace ez with ((ez - ez') + ez')%Z at 2 by lia.
    rewrite (bpow_add (ez - ez')). ring. }
  rewrite Hval in Herr. exact Herr.
Qed.

(** The sum of two positive finite numbers, in the normal range. *)
Lemma SFadd_pos mx ex my ey :
  bpow (-1022) <= IZR (Zpos mx) * bpow ex + IZR (Zpos my) * bpow ey
  < bpow 1023 ->
  exists m e,
    SFadd prec emax (S754_finite false mx ex) (S754_finite false my ey)
    = S754_finite false m e
    /\ (2 ^ 52 <= Zpos m < 2 ^ 53)%Z
    /\ (-1074 <= e)%Z
    /\ Rabs (IZR (Zpos m) * bpow e
             - (IZR (Zpos mx) * bpow ex + IZR (Zpos my) * bpow ey))
       <= bpow (-53) * (IZR (Zpos mx) * bpow ex + IZR (Zpos my) * bpow ey).
Proof.
  intros HV. unfold SFadd.
  destruct (shl_align_value mx ex (Z.min ex ey)) as (ax & e1 & E1 & He1 & Hax).
  destruct (shl_align_value my ey (Z.min ex ey)) as (ay & e2 & E2 & He2 & Hay).
  rewrite E1, E2. cbn [fst cond_Zopp Z.add binary_normalize].
  assert (Hsum : IZR (Zpos (ax + ay)) * bpow (Z.min ex ey)
                 = IZR (Zpos mx) * bpow ex + IZR (Zpos my) * bpow ey).
  { rewrite Pos2Z.inj_add, plus_IZR, Hax, Hay, !mult_IZR.
    rewrite <- !bpow_IZR by lia.
    assert (Hbx : bpow ex = bpow (ex - e1) * bpow (Z.min ex ey))
      by (rewrite <- bpow_add; f_equal; lia).
    assert (Hby : bpow ey = bpow (ey - e2) * bpow (Z.min ex ey))
      by (rewrite <- bpow_add; f_equal; lia).
    rewrite Hbx, Hby. ring. }
  rewrite <- Hsum in HV |- *.
  apply binary_round_rel. exact HV.
Qed.

(** Comparison of a canonical positive number with a normal one. *)
Lemma SFltb_of_Rlt mx ex m e :
  valid_binary (S754_finite false mx ex) = true ->
  (2 ^ 52 <= Zpos m < 2 ^ 53)%Z ->
  (-1074 <= e)%Z ->
  IZR (Zpos mx) * bpow ex < IZR (Zpos m) * bpow e ->
  SFltb (S754_finite false mx ex) (S754_finite false m e) = true.
Proof.
  intros Hv Hm He Hlt. unfold SFltb, SFcompare.
  destruct (Z.compare_spec ex e) as [E | E | E].
  - subst e. rewrite Pos.compare_cont_spec. simpl.
    pose proof (bpow_pos ex).
    assert (IZR (Zpos mx) < IZR (Zpos m)) by nra.
    apply lt_IZR in H0.
    destruct (Pos.compare_spec mx m); try lia. reflexivity.
  - reflexivity.
  - exfalso.
    unfold valid_binary, bounded, canonical_mantissa in Hv.
    apply andb_prop in Hv. destruct Hv as [Hv _].
    apply Z.eqb_eq in Hv. rewrite fexp64 in Hv.
    pose proof (Zdigits2_bounds mx) as [Hb _].
    replace (Zdigits2 (Zpos mx)) with 53%Z in Hb by (unfold Zdigits2; lia).
    apply IZR_le in Hb. apply proj2, IZR_lt in Hm.
    pose proof (bpow_le (e + 1) ex ltac:(lia)) as Hee.
    rewrite bpow_succ in Hee. pose proof (bpow_pos e).
    change (IZR (2 ^ (53 - 1))) with 4503599627370496 in Hb.
    change (IZR (2 ^ 53)) with 9007199254740992 in Hm.
    pose proof (bpow_pos ex). nra.
Qed.

Lemma add_100_gt h :
  (0 <=? h)%float = true -> (h <=? 0x1p53)%float = true ->
  (h <? h + 100)%float = true.
Proof.
  intros H0 H1. rewrite leb_spec in H0, H1. rewrite ltb_spec, add_spec.
  change (Prim2SF 0) with (S754_zero false) in H0.
  change (Prim2SF 0x1p53) with (S754_finite false 4503599627370496 1) in H1.
  change (Prim2SF 100) with (S754_finite false 7036874417766400 (-46)).
  pose proof (Prim2SF_valid h) as Hv.
  destruct (Prim2SF h) as [s|s| |s mx ex].
  - reflexivity.
  - destruct s; [discriminate H0 | discriminate H1].
  - discriminate H0.
  - destruct s; [discriminate H0|].
    assert (Hex : (ex <= 1)%Z).
    { unfold SFleb, SFcompare in H1.
      destruct (Z.compare_spec ex 1); [lia | lia | discriminate]. }
    assert (Hmx : (0 < Zpos mx < 2 ^ 53)%Z).
    { split; [lia|].
      pose proof Hv as Hv'.
      unfold valid_binary, bounded, canonical_mantissa in Hv'.
      apply andb_prop in Hv'. destruct Hv' as [Hv' _].
      apply Z.eqb_eq in Hv'. rewrite fexp64 in Hv'.
      pose proof (Zdigits2_bounds mx) as [_ Hb].
      assert (Zdigits2 (Zpos mx) <= 53)%Z by (unfold Zdigits2; lia).
      eapply Z.lt_le_trans; [exact Hb|].
      apply Z.pow_le_mono_r; lia. }
    set (H := IZR (Zpos mx) * bpow ex).
    assert (H100 : IZR (Zpos 7036874417766400) * bpow (-46) = 100).
    { change (-46)%Z with (Z.opp 46). rewrite bpow_opp, (bpow_IZR 46) by lia.
      change (2 ^ 46)%Z with 70368744177664%Z. lra. }
    assert (HH : 0 < H < 18014398509481984).
    { unfold H. pose proof (bpow_pos ex).
      pose proof (bpow_le ex 1 Hex) as Hb1.
      replace (bpow 1) with 2 in Hb1 by (unfold bpow; simpl; lra).
      destruct Hmx as [Hm0 Hm1]. apply IZR_lt in Hm0, Hm1.
      change (IZR (2 ^ 53)) with 9007199254740992 in Hm1. nra. }
    destruct (SFadd_pos mx ex 7036874417766400 (-46)) as (m & e & E & Hm & He & Herr).
    { fold H. rewrite H100. split.
      - apply Rle_trans with 1; [|lra].
        change (-1022)%Z with (Z.opp 1022). rewrite bpow_opp.
        pose proof (bpow_ge_1 1022 ltac:(lia)).
        rewrite <- Rinv_1. apply Rinv_le_contravar; lra.
      - apply Rlt_le_trans with (bpow 55).
        + rewrite (bpow_IZR 55) by lia.
          change (IZR (2 ^ 55)) with 36028797018963968. lra.
        + apply bpow_le. lia. }
    unfold SF64add. rewrite E.
    apply SFltb_of_Rlt; try assumption.
    fold H in Herr |- *. rewrite H100 in Herr.
    assert (Hu : bpow (-53) = / 9007199254740992).
    { change (-53)%Z with (Z.opp 53).
      rewrite bpow_opp, (bpow_IZR 53) by lia. reflexivity. }
    rewrite Hu in Herr. apply Rabs_le_inv in Herr. lra.
Qed.

(** ** Unit round trip (claim C7) *)

(** C7, the amended claim: the forward conversion divides by a fixed
    constant and the inverse conversion multiplies by the same constant; for
    every frequency [f] between [2^-1013] and [2^1020] (so that the quotient
    is a normal number and the product does not overflow) the round trip
    reproduces [f] within the relative tolerance [1e-9].  The value of the
    constant is no part of the statement. *)
Theorem C7_roundtrip_within_tolerance f :
  (0x1p-1013 <=? f)%float = true -> (f <=? 0x1p1020)%float = true ->
  (exists c : float,
     (forall x, ghz_to_meep x = (x / c)%float)
     /\ (forall x, meep_to_ghz x = (x * c)%float))
  /\ 0 < F2R f
  /\ Rabs (F2R (meep_to_ghz (ghz_to_meep f)) - F2R f) <= rel_tol * F2R f.
Proof.
  intros Hlo Hhi.
  split; [exists 300%float; split; intros x; reflexivity|].
  destruct (float_between 0x1p-1013 0x1p1020 f 4503599627370496 (-1065)
              4503599627370496 968 eq_refl eq_refl ltac:(lia) Hlo Hhi)
    as (m & e & Hf & Hm & He).
  unfold meep_to_ghz, ghz_to_meep, F2R.
  rewrite mul_spec, div_spec, Hf.
  change (Prim2SF 300) with (S754_finite false 5277655813324800 (-44)).
  unfold SF64mul, SF64div.
  destruct (SFdiv_normal false m e false 5277655813324800 (-44) Hm
              ltac:(lia) ltac:(lia))
    as (m1 & e1 & E1 & Hm1 & He1 & Herr1).
  rewrite E1.
  destruct (SFmul_normal (xorb false false) m1 e1 false 5277655813324800
              (-44) Hm1 ltac:(lia) ltac:(lia))
    as (m2 & e2 & E2 & Hm2 & He2 & Herr2).
  rewrite E2. cbn [SF2R xorb].
  assert (H300 : IZR (Zpos 5277655813324800) * bpow (-44) = 300).
  { change (-44)%Z with (Z.opp 44). rewrite bpow_opp, (bpow_IZR 44) by lia.
    change (2 ^ 44)%Z with 17592186044416%Z. lra. }
  rewrite H300 in Herr1, Herr2.
  assert (Hu : bpow (-53) = / 9007199254740992).
  { change (-53)%Z with (Z.opp 53). rewrite bpow_opp, (bpow_IZR 53) by lia.
    reflexivity. }
  rewrite Hu in Herr1, Herr2.
  set (F := IZR (Zpos m) * bpow e) in *.
  set (G1 := IZR (Zpos m1) * bpow e1) in *.
  set (G := IZR (Zpos m2) * bpow e2) in *.
  assert (HF : 0 < F).
  { unfold F. pose proof (bpow_pos e).
    assert (0 < IZR (Zpos m)) by (apply IZR_lt; lia). nra. }
  split; [exact HF|].
  apply Rabs_le_inv in Herr1. apply Rabs_le_inv in Herr2.
  unfold rel_tol. apply Rabs_le.
  assert (HQ : F / 300 * 300 = F) by (field; lra).
  assert (0 < F / 300) by (apply Rdiv_lt_0_compat; lra).
  split; nra.
Qed.

(** The centre frequency of the script, 5 GHz, lies in that range. *)
Lemma C7_roundtrip_within_tolerance_witness :
  (0x1p-1013 <=? 5)%float = true
  /\ (5 <=? 0x1p1020)%float = true
  /\ Rabs (F2R (meep_to_ghz (ghz_to_meep 5)) - F2R 5) <= rel_tol * F2R 5.
Proof.
  split; [reflexivity|]. split; [reflexivity|].
  apply (C7_roundtrip_within_tolerance 5%float eq_refl eq_refl).
Defined.

(** C7 as stated fails on the smallest positive float: the quotient by 300
    underflows to zero, and the round trip returns zero. *)
Lemma C7_counterexample :
  (0 <? 0x1p-1074)%float = true
  /\ ghz_to_meep 0x1p-1074 = 0%float
  /\ meep_to_ghz (ghz_to_meep 0x1p-1074) = 0%float
  /\ 0 < F2R 0x1p-1074
  /\ ~ Rabs (F2R (meep_to_ghz (ghz_to_meep 0x1p-1074)) - F2R 0x1p-1074)
       <= rel_tol * F2R 0x1p-1074.
Proof.
  split; [reflexivity|]. split; [reflexivity|]. split; [reflexivity|].
  assert (E : meep_to_ghz (ghz_to_meep 0x1p-1074) = 0%float) by reflexivity.
  rewrite E. unfold F2R.
  assert (E1 : Prim2SF 0x1p-1074 = S754_finite false 1 (-1074))
    by reflexivity.
  assert (E0 : Prim2SF 0 = S754_zero false) by reflexivity.
  rewrite E1, E0. cbn [SF2R]. pose proof (bpow_pos (-1074)) as Hp.
  split; [lra|]. unfold rel_tol. intros H. apply Rabs_le_inv in H. lra.
Qed.

(** ** The hollow tube (claim C8) *)

(** C8: [build_geometry] ends with the two cylinders of the tube, on the same
    centre and axis: the dielectric outer cylinder at rank 3, then the air
    cylinder at rank 4, whose height is the outer height plus 100.  With the
    script's configuration the heights are 9600 and 9700; for any outer
    height from 0 up to [2^53] the inner height is strictly greater.  The
    exported script lists the same two cylinders in the same order, with
    heights 9600 and 10000. *)
Theorem C8_inner_cylinder_later_and_taller :
  (forall cfg,
     exists b1 b2 b3 c r_outer r_inner,
       build_geometry cfg
       = [b1; b2; b3;
          Cylinder c r_outer (substrate_h cfg) default_axis fr4;
          Cylinder c r_inner (substrate_h cfg + 100) default_axis air])
  /\ (forall cfg,
        (0 <=? substrate_h cfg)%float = true ->
        (substrate_h cfg <=? 0x1p53)%float = true ->
        (substrate_h cfg <? substrate_h cfg + 100)%float = true)
  /\ (exists b1 b2 b3 c,
        build_geometry config
        = [b1; b2; b3;
           Cylinder c 15000 9600 default_axis fr4;
           Cylinder c 13000 9700 default_axis air])
  /\ (9600 <? 9700)%float = true
  /\ (exists b1 b2 b3 c axis,
        MeepExport.build_geometry
        = [b1; b2; b3;
           Cylinder c 15000 9600 axis (MediumEps 4.4);
           Cylinder c 13000 10000 axis air])
  /\ (9600 <? 10000)%float = true.
Proof.
  split; [|split; [|split; [|split; [|split]]]].
  - intros cfg. do 6 eexists. reflexivity.
  - intros cfg. apply add_100_gt.
  - do 4 eexists. reflexivity.
  - reflexivity.
  - do 5 eexists. reflexivity.
  - reflexivity.
Qed.

(** The script's own height lies in that range. *)
Lemma C8_inner_cylinder_later_and_taller_witness :
  (0 <=? substrate_h config)%float = true
  /\ (substrate_h config <=? 0x1p53)%float = true
  /\ (substrate_h config <? substrate_h config + 100)%float = true.
Proof.
  split; [reflexivity|]. split; [reflexivity|].
  apply (proj1 (proj2 C8_inner_cylinder_later_and_taller) config);
    reflexivity.
Defined.

End Binary64Rounding.

(** ** Runs (claims C5, C6, C9) *)

Section RunFacts.
Context {np : Numpy} {sv : Solver}.

Lemma same_frame_refl st : same_frame st st.
Proof. repeat split. Qed.

Lemma same_frame_trans st1 st2 st3 :
  same_frame st1 st2 -> same_frame st2 st3 -> same_frame st1 st3.
Proof.
  intros (A1 & A2 & A3) (B1 & B2 & B3).
  repeat split; congruence.
Qed.

Lemma eval_step_func_frame sim f : forall vol st,
  same_frame st (eval_step_func sim vol f st).
Proof.
  induction f as [interval g IH | v g IH | | cfg]; intros vol st; simpl.
  - destruct (sv_due sim interval (st_world st));
      [apply IH | apply same_frame_refl].
  - apply IH.
  - repeat split.
  - repeat split.
Qed.

Lemma eval_step_funcs_frame sim fs : forall st,
  same_frame st (eval_step_funcs sim fs st).
Proof.
  unfold eval_step_funcs.
  induction fs as [|f fs IH]; intros st; simpl.
  - apply same_frame_refl.
  - eapply same_frame_trans; [apply eval_step_func_frame | apply IH].
Qed.

(** A run changes neither the trace nor the objects, and raises nothing. *)
Lemma run_loop_frame n sim args : forall st,
  same_frame st (final_state (run_loop n sim args st))
  /\ (forall e st', run_loop n sim args st <> Raises e st').
Proof.
  induction n as [|n IH]; intros st; simpl;
    destruct (sv_stop sim (until_after_sources args) (st_world st)); simpl.
  - pose proof (eval_step_funcs_frame sim (step_funcs args) st)
      as (A & B & C).
    split; [repeat split; assumption | discriminate].
  - split; [repeat split | discriminate].
  - pose proof (eval_step_funcs_frame sim (step_funcs args) st)
      as (A & B & C).
    split; [repeat split; assumption | discriminate].
  - match goal with |- context [run_loop n sim args ?s] =>
      destruct (IH s) as ((A & B & C) & D) end.
    pose proof (eval_step_funcs_frame sim (step_funcs args) st)
      as (A' & B' & C').
    split; [|apply D].
    repeat split; simpl in *; congruence.
Qed.

Lemma steps_succ sim k w : steps sim (S k) w = steps sim k (sv_step sim w).
Proof.
  unfold steps. induction k as [|k IH]; simpl in *; [reflexivity|].
  rewrite IH. reflexivity.
Qed.

(** A run with no step function whose stopping condition never holds takes
    every step it is allowed and does not return. *)
Lemma run_loop_never_stops n sim cond : forall st,
  (forall k, sv_stop sim cond (steps sim k (st_world st)) = false) ->
  exists w',
    run_loop n sim {| step_funcs := []; until_after_sources := cond |} st
    = Diverges (with_fuel 0 (with_world w' st)).
Proof.
  induction n as [|n IH]; intros st Hnever; simpl.
  - rewrite (Hnever 0%nat : sv_stop sim cond (st_world st) = false).
    exists (st_world st). destruct st; reflexivity.
  - rewrite (Hnever 0%nat : sv_stop sim cond (st_world st) = false).
    unfold eval_step_funcs; simpl.
    destruct (IH (with_world (sv_step sim (st_world st)) st)) as [w' Hw'].
    + intros k. simpl. rewrite <- steps_succ. apply Hnever.
    + exists w'. rewrite Hw'. destruct st; reflexivity.
Qed.

(** A run with no step function returns as soon as its stopping condition
    holds, provided it may take that many steps. *)
Lemma run_loop_stops n sim cond : forall k st,
  sv_stop sim cond (steps sim k (st_world st)) = true ->
  (k <= n)%nat ->
  exists st',
    run_loop n sim {| step_funcs := []; until_after_sources := cond |} st
    = Returns tt st'.
Proof.
  induction n as [|n IH]; intros k st Hstop Hk; simpl.
  - assert (k = 0%nat) as -> by lia. simpl in Hstop. rewrite Hstop. eauto.
  - destruct (sv_stop sim cond (st_world st)) eqn:E; [eauto|].
    destruct k as [|k]; [simpl in Hstop; congruence|].
    apply (IH k); [|lia].
    unfold eval_step_funcs; simpl. rewrite <- steps_succ. exact Hstop.
Qed.

End RunFacts.

(** Symbolic execution of the script: call by value, so that the state
    stays in normal form from one call to the next. *)
Ltac exec_script :=
  cbv beta iota zeta delta
    [run_simulation run_reference create_simulation setup_monitors
     sim_run set_geometry load_minus_flux_data get_fluxes get_flux_freqs
     reset_meep get_flux_data new_field_data get_field_data mp_Simulation
     add_flux emit update_world ask_world bind ret initial_state
     final_state st_world st_trace st_fuel st_sims st_fluxes st_field_t
     st_field_ez with_world app refl trans] in *.

(** Case analysis on the next run of a script under execution. *)
Ltac run_cases :=
  match goal with
  | |- context [run_loop ?n ?s ?a ?st] =>
      let A := fresh "Htrace" in
      let B := fresh "Hsims" in
      let C := fresh "Hfluxes" in
      let D := fresh "Hraise" in
      let E := fresh "Hrun" in
      let st1 := fresh "st" in
      let e1 := fresh "e" in
      destruct (run_loop_frame n s a st) as ((A & B & C) & D);
      destruct (run_loop n s a st) as [[] st1|e1 st1|st1] eqn:E;
      [ exec_script; rewrite ?A, ?B, ?C; exec_script
      | exfalso; eapply D; reflexivity
      | exec_script ]
  end.

Section ScriptFacts.
Context {np : Numpy} {sv : Solver}.

(** The trace of an execution, whatever the solver does.  Both simulations
    are created from the same arguments, and the reflection monitor is added
    to both from the same arguments. *)
Lemma run_simulation_trace cfg output_dir plot w fuel :
  exists args spec_r spec_t run0 run1,
    geometry args = build_geometry cfg
    /\ fs_nfreq spec_r = 50%Z
    /\ run0 = {| step_funcs := [];
                 until_after_sources := decay_criterion cfg |}
    /\ until_after_sources run1 = decay_criterion cfg
    /\ let t_ref :=
         [EvMakedirs output_dir; EvSimulation 0 args; EvSetGeometry 0 [];
          EvAddFlux 0 0 spec_r; EvRunStart 0 run0] in
       let t_main data :=
         [EvRunDone 0; EvGetFluxes 0; EvGetFluxFreqs 0; EvResetMeep 0;
          EvGetFluxData 0 0 data; EvSimulation 1 args; EvAddFlux 1 1 spec_r;
          EvAddFlux 1 2 spec_t; EvLoadMinusFluxData 1 1 data;
          EvRunStart 1 run1] in
       let o := run_simulation cfg output_dir plot (initial_state w fuel) in
       (exists st, o = Diverges st /\ st_trace st = t_ref)
       \/ (exists data st,
             o = Diverges st /\ st_trace st = t_ref ++ t_main data)
       \/ (exists data results st,
             o = Returns results st
             /\ st_trace st
                = t_ref ++ t_main data
                  ++ [EvRunDone 1; EvGetFluxes 1; EvGetFluxes 2;
                      EvSavez (output_dir ++ "/results.npz") results]
                  ++ (if plot then [EvPlotResults results output_dir]
                      else [])).
Proof.
  do 5 eexists.
  split; [|split; [|split; [|split]]]; cycle 4.
  - exec_script.
    run_cases.
    + run_cases.
      * right; right. destruct plot; exec_script;
          do 3 eexists; (split; [reflexivity|]); reflexivity.
      * right; left. do 2 eexists. split; [reflexivity|].
        rewrite Htrace0. reflexivity.
    + left. eexists. split; [reflexivity|]. rewrite Htrace. reflexivity.
  - reflexivity.
  - reflexivity.
  - reflexivity.
  - reflexivity.
Qed.

(** A run that returns has seen its stopping condition hold. *)
Lemma run_loop_returns_stopped n sim args : forall st st',
  run_loop n sim args st = Returns tt st' ->
  exists w', sv_stop sim (until_after_sources args) w' = true.
Proof.
  induction n as [|n IH]; intros st st'; simpl;
    destruct (sv_stop sim (until_after_sources args) (st_world st)) eqn:E;
    try discriminate; eauto.
Qed.

(** [monitors["refl"]] is the first monitor [setup_monitors] adds,
    [monitors["trans"]] the second. *)
Lemma setup_monitors_returns sim cfg fcen fwidth st :
  exists st',
    setup_monitors sim cfg fcen fwidth st
    = Returns {| refl := st_fluxes st; trans := S (st_fluxes st) |} st'.
Proof. eexists. reflexivity. Qed.

(** The script raises none of the errors of the taxonomy. *)
Lemma run_simulation_never_raises cfg output_dir plot w fuel :
  exists st,
    run_simulation cfg output_dir plot (initial_state w fuel) = Diverges st
    \/ exists results,
         run_simulation cfg output_dir plot (initial_state w fuel)
         = Returns results st.
Proof.
  destruct (run_simulation_trace cfg output_dir plot w fuel)
    as (args & spec_r & spec_t & run0 & run1 & _ & _ & _ & _ & H).
  cbv zeta in H.
  destruct H as [(st & H & _) | [(data & st & H & _)
                                | (data & results & st & H & _)]];
    exists st; rewrite H; eauto.
Qed.

(** C5: the reflection monitor of the reference run (monitor 0, on
    simulation 0) and the reflection monitor of the main run (monitor 1, on
    simulation 1) are added with the same centre, the same size, the same
    centre frequency, the same frequency width and 50 bins: their arguments
    are equal, so any frequency grid derived from them is the same. *)
Theorem C5_same_reflection_monitor cfg output_dir plot w fuel i j spec0 spec1 :
  nth_error
    (st_trace
       (final_state
          (run_simulation cfg output_dir plot (initial_state w fuel)))) i
  = Some (EvAddFlux 0 0 spec0) ->
  nth_error
    (st_trace
       (final_state
          (run_simulation cfg output_dir plot (initial_state w fuel)))) j
  = Some (EvAddFlux 1 1 spec1) ->
  fr_center (fs_region spec0) = fr_center (fs_region spec1)
  /\ fr_size (fs_region spec0) = fr_size (fs_region spec1)
  /\ fs_fcen spec0 = fs_fcen spec1
  /\ fs_fwidth spec0 = fs_fwidth spec1
  /\ fs_nfreq spec0 = 50%Z
  /\ fs_nfreq spec1 = 50%Z
  /\ spec0 = spec1.
Proof.
  destruct (run_simulation_trace cfg output_dir plot w fuel)
    as (args & spec_r & spec_t & run0 & run1 & _ & Hn & _ & _ & H).
  cbv zeta in H. intros H0 H1.
  apply nth_error_In in H0. apply nth_error_In in H1.
  assert (spec0 = spec_r /\ spec1 = spec_r) as [-> ->].
  { destruct H as [(st & H & Ht) | [(data & st & H & Ht)
                                   | (data & results & st & H & Ht)]];
      rewrite H in H0, H1; simpl final_state in H0, H1;
      rewrite Ht in H0, H1; try destruct plot; simpl in H0, H1;
      split;
      repeat (match goal with
              | Hin : _ \/ _ |- _ => destruct Hin as [Hin | Hin]
              | Hin : False |- _ => destruct Hin
              | Hin : _ = EvAddFlux _ _ _ |- _ =>
                  first [discriminate Hin
                        | injection Hin as <-; reflexivity
                        | injection Hin; intros; discriminate ]
              end). }
  repeat split; assumption.
Qed.


(** C9, the amended claim: [build_geometry] checks no extent of its own.
    For every configuration whose extents are all zero or positive it
    describes the same five primitives in the same order, with the extents
    the configuration gives, the zero ones included; the script raises no
    [InvalidGeometry], hands this geometry to the solver and starts the
    reference run.  Negative extents are left to the solver's shape
    constructors and are no part of the statement. *)
Theorem C9_no_extent_validation cfg output_dir plot w fuel :
  forallb nonnegative_extents (build_geometry cfg) = true ->
  build_geometry cfg
  = [ Block (mkVector3 (- gap cfg / 2 - pad_length cfg / 2) 0
               (bridge_t cfg / 2))
        (mkVector3 (pad_length cfg) (bridge_w cfg) (bridge_t cfg)) copper;
      Block (mkVector3 (gap cfg / 2 + pad_length cfg / 2) 0
               (bridge_t cfg / 2))
        (mkVector3 (pad_length cfg) (bridge_w cfg) (bridge_t cfg)) copper;
      Block (mkVector3 0 0 (bridge_t cfg * 1.25))
        (mkVector3 (gap cfg + 4 * MM_TO_UM) (bridge_w cfg * 0.6)
           (bridge_t cfg * 0.5)) copper;
      Cylinder (mkVector3 0 0 (- substrate_h cfg / 2)) (substrate_r cfg)
        (substrate_h cfg) default_axis fr4;
      Cylinder (mkVector3 0 0 (- substrate_h cfg / 2))
        (substrate_r cfg - wall_thickness cfg) (substrate_h cfg + 100)
        default_axis air ]
  /\ exists st args run0,
       (run_simulation cfg output_dir plot (initial_state w fuel)
        = Diverges st
        \/ exists results,
             run_simulation cfg output_dir plot (initial_state w fuel)
             = Returns results st)
       /\ nth_error (st_trace st) 1 = Some (EvSimulation 0 args)
       /\ geometry args = build_geometry cfg
       /\ nth_error (st_trace st) 4 = Some (EvRunStart 0 run0).
Proof.
  intros _.
  split; [reflexivity|].
  destruct (run_simulation_trace cfg output_dir plot w fuel)
    as (args & spec_r & spec_t & run0 & run1 & Hgeo & _ & _ & _ & H).
  cbv zeta in H.
  destruct H as [(st & H & Ht) | [(data & st & H & Ht)
                                 | (data & results & st & H & Ht)]];
    exists st, args, run0; rewrite H, Ht;
    (split; [eauto | split; [reflexivity | split; [exact Hgeo|reflexivity]]]).
Qed.

End ScriptFacts.

(** ** Concrete executions *)

(** With a solver whose runs stop at once, the two monitors are added by the
    calls of rank 3 and 11. *)
Lemma C5_same_reflection_monitor_witness :
  exists spec0 spec1,
    nth_error
      (st_trace
         (final_state
            (@run_simulation np_stub quiet_solver config "output" false
               (initial_state (sv := quiet_solver) tt 0)))) 3
    = Some (EvAddFlux 0 0 spec0)
    /\ nth_error
         (st_trace
            (final_state
               (@run_simulation np_stub quiet_solver config "output" false
                  (initial_state (sv := quiet_solver) tt 0)))) 11
       = Some (EvAddFlux 1 1 spec1)
    /\ spec0 = spec1
    /\ fs_nfreq spec0 = 50%Z.
Proof.
  do 2 eexists.
  assert (H0 : nth_error
      (st_trace
         (final_state
            (@run_simulation np_stub quiet_solver config "output" false
               (initial_state (sv := quiet_solver) tt 0)))) 3
    = Some (EvAddFlux 0 0
              {| fs_fcen := ghz_to_meep 5; fs_fwidth := ghz_to_meep 4;
                 fs_nfreq := 50;
                 fs_region :=
                   {| fr_center := mkVector3 (-2250) 0 250;
                      fr_size := mkVector3 0 8000 1500 |} |}))
    by (vm_compute; reflexivity).
  assert (H1 : nth_error
      (st_trace
         (final_state
            (@run_simulation np_stub quiet_solver config "output" false
               (initial_state (sv := quiet_solver) tt 0)))) 11
    = Some (EvAddFlux 1 1
              {| fs_fcen := ghz_to_meep 5; fs_fwidth := ghz_to_meep 4;
                 fs_nfreq := 50;
                 fs_region :=
                   {| fr_center := mkVector3 (-2250) 0 250;
                      fr_size := mkVector3 0 8000 1500 |} |}))
    by (vm_compute; reflexivity).
  split; [exact H0|]. split; [exact H1|].
  pose proof (@C5_same_reflection_monitor np_stub quiet_solver config
                "output" false tt 0%nat 3%nat 11%nat _ _ H0 H1) as H.
  split; apply H.
Defined.



(** A bridge of thickness zero: no extent is negative, the third block has
    height zero, and the script creates the simulation. *)
Lemma C9_no_extent_validation_witness :
  forallb nonnegative_extents (build_geometry flat_config) = true
  /\ nth_error (build_geometry flat_config) 2
     = Some (Block (mkVector3 0 0 0) (mkVector3 6500 4800 0) copper)
  /\ exists st args run0,
       (@run_simulation np_stub quiet_solver flat_config "output" false
          (initial_state (sv := quiet_solver) tt 0)
        = Diverges st
        \/ exists results,
             @run_simulation np_stub quiet_solver flat_config "output" false
               (initial_state (sv := quiet_solver) tt 0)
             = Returns results st)
       /\ nth_error (st_trace st) 1 = Some (EvSimulation 0 args)
       /\ geometry args = build_geometry flat_config
       /\ nth_error (st_trace st) 4 = Some (EvRunStart 0 run0).
Proof.
  split; [reflexivity|]. split; [reflexivity|].
  exact (proj2 (@C9_no_extent_validation np_stub quiet_solver flat_config
                  "output" false tt 0%nat eq_refl)).
Defined.

(** C9 as stated fails: a bridge of thickness zero gives three blocks of
    height zero; no error is raised, and both runs are carried out. *)
Lemma C9_counterexample :
  (bridge_t flat_config <=? 0)%float = true
  /\ nth_error (build_geometry flat_config) 0
     = Some (Block (mkVector3 (-13750) 0 0) (mkVector3 25000 8000 0) metal)
  /\ exists results st,
       @run_simulation np_stub quiet_solver flat_config "output" false
         (initial_state (sv := quiet_solver) tt 0)
       = Returns results st
       /\ nth_error (st_trace st) 5 = Some (EvRunDone 0)
       /\ nth_error (st_trace st) 15 = Some (EvRunDone 1).
Proof.
  split; [reflexivity|]. split; [reflexivity|].
  do 2 eexists. split; [vm_compute; reflexivity|].
  split; reflexivity.
Qed.

(** ** S-parameter extraction (claims C1, C2, C3, C10) *)

(** C1, the amended claim: in a bin [k] whose incident flux [i] is nonzero,
    [S11 = -r / i] and [S21 = t / i]; the decibel value of a ratio is
    [10 * log10 |ratio|] when the ratio itself is nonzero, and the sentinel
    [-100] when the ratio is zero.  Each output bin depends on the three
    input bins of the same rank only. *)
Theorem C1_ratios_per_bin (np : Numpy) refl_flux trans_flux incident_flux
    k r t i :
  nth_error refl_flux k = Some r ->
  nth_error trans_flux k = Some t ->
  nth_error incident_flux k = Some i ->
  float_ne0 i = true ->
  nth_error (s11_of refl_flux incident_flux) k = Some (PyFloat (- r / i))
  /\ nth_error (s21_of trans_flux incident_flux) k = Some (PyFloat (t / i))
  /\ nth_error (to_db (s11_of refl_flux incident_flux)) k
     = Some (if float_ne0 (- r / i)
             then PyFloat (10 * np_log10 (abs (- r / i)))
             else PyInt (-100))
  /\ nth_error (to_db (s21_of trans_flux incident_flux)) k
     = Some (if float_ne0 (t / i)
             then PyFloat (10 * np_log10 (abs (t / i)))
             else PyInt (-100)).
Proof.
  intros Hr Ht Hi Hne.
  pose proof (s11_of_nth _ _ _ _ _ Hr Hi) as H11.
  pose proof (s21_of_nth _ _ _ _ _ Ht Hi) as H21.
  rewrite Hne in H11, H21.
  repeat split; auto.
  - rewrite (to_db_nth _ _ _ H11). reflexivity.
  - rewrite (to_db_nth _ _ _ H21). reflexivity.
Qed.

(** One bin: reflected 1, transmitted 1, incident 2. *)
Lemma C1_ratios_per_bin_witness :
  float_ne0 2 = true
  /\ nth_error (s11_of [1]%float [2]%float) 0 = Some (PyFloat (-0.5))
  /\ nth_error (s21_of [1]%float [2]%float) 0 = Some (PyFloat 0.5)
  /\ nth_error (@to_db np_stub (s11_of [1]%float [2]%float)) 0
     = Some (PyFloat (10 * log10_stub 0.5))
  /\ nth_error (@to_db np_stub (s21_of [1]%float [2]%float)) 0
     = Some (PyFloat (10 * log10_stub 0.5)).
Proof.
  split; [reflexivity|].
  exact (C1_ratios_per_bin np_stub [1]%float [1]%float [2]%float 0
           1%float 1%float 2%float eq_refl eq_refl eq_refl eq_refl).
Defined.

(** C1 as stated fails where the reflected flux is zero and the incident flux
    is not: the ratio is [-0.0], and the decibel value is the sentinel [-100],
    not [10 * log10 0]. *)
Lemma C1_counterexample :
  float_ne0 2 = true
  /\ s11_of [0]%float [2]%float = [PyFloat (-0)]
  /\ @to_db np_stub (s11_of [0]%float [2]%float) = [PyInt (-100)]
  /\ PyInt (-100) <> PyFloat (10 * log10_stub (abs (- 0 / 2)))
  /\ num_eqb (PyInt (-100)) (PyFloat (10 * log10_stub (abs (- 0 / 2))))
     = false.
Proof. repeat split; try reflexivity. discriminate. Qed.

(** C2: in a bin [k] whose incident flux is zero, both ratios are the int [0]
    and both decibel values are the sentinel [-100], whatever the other bins
    hold; on the specification's example the outputs are
    [[-100, 10 * log10 0.5, -100]] twice. *)
Theorem C2_zero_incident_sentinel (np : Numpy) refl_flux trans_flux
    incident_flux k r t i :
  nth_error refl_flux k = Some r ->
  nth_error trans_flux k = Some t ->
  nth_error incident_flux k = Some i ->
  (i =? 0)%float = true ->
  (nth_error (s11_of refl_flux incident_flux) k = Some (PyInt 0)
   /\ nth_error (s21_of trans_flux incident_flux) k = Some (PyInt 0)
   /\ nth_error (to_db (s11_of refl_flux incident_flux)) k
      = Some (PyInt (-100))
   /\ nth_error (to_db (s21_of trans_flux incident_flux)) k
      = Some (PyInt (-100)))
  /\ to_db (s11_of [1.0; 1.0; 0]%float [0; 2.0; 0]%float)
     = [PyInt (-100); PyFloat (10 * np_log10 0.5); PyInt (-100)]
  /\ to_db (s21_of [0.5; 1.0; 0]%float [0; 2.0; 0]%float)
     = [PyInt (-100); PyFloat (10 * np_log10 0.5); PyInt (-100)].
Proof.
  intros Hr Ht Hi H0.
  pose proof (s11_of_nth _ _ _ _ _ Hr Hi) as H11.
  pose proof (s21_of_nth _ _ _ _ _ Ht Hi) as H21.
  unfold float_ne0 in H11, H21. rewrite H0 in H11, H21. simpl in H11, H21.
  repeat split; auto.
  - rewrite (to_db_nth _ _ _ H11). reflexivity.
  - rewrite (to_db_nth _ _ _ H21). reflexivity.
Qed.

(** The last bin of the specification's example. *)
Lemma C2_zero_incident_sentinel_witness :
  (0 =? 0)%float = true
  /\ nth_error (@to_db np_stub (s11_of [1.0; 1.0; 0]%float [0; 2.0; 0]%float))
       2 = Some (PyInt (-100))
  /\ nth_error (@to_db np_stub (s21_of [0.5; 1.0; 0]%float [0; 2.0; 0]%float))
       2 = Some (PyInt (-100)).
Proof.
  split; [reflexivity|].
  pose proof (C2_zero_incident_sentinel np_stub [1.0; 1.0; 0]%float
                [0.5; 1.0; 0]%float [0; 2.0; 0]%float 2 0%float 0%float
                0%float eq_refl eq_refl eq_refl eq_refl) as H.
  split; apply H.
Defined.




(** C3, the amended claim: the script compares no lengths and raises no
    [MonitorGridMismatch].  [zip] pairs the flux arrays up to the shorter
    one: the S11 arrays have [min (len reflected) (len incident)] bins, the
    S21 arrays [min (len transmitted) (len incident)], and every bin below
    those lengths is computed from the bins of the same rank.  An execution
    of the script either returns its results or is still inside a run; it
    never ends with an error. *)
Theorem C3_unequal_lengths_truncate (np : Numpy) (sv : Solver) refl_flux
    trans_flux incident_flux cfg output_dir plot w fuel :
  List.length (to_db (s11_of refl_flux incident_flux))
  = Nat.min (List.length refl_flux) (List.length incident_flux)
  /\ List.length (to_db (s21_of trans_flux incident_flux))
     = Nat.min (List.length trans_flux) (List.length incident_flux)
  /\ (forall k r i,
        nth_error refl_flux k = Some r -> nth_error incident_flux k = Some i ->
        nth_error (to_db (s11_of refl_flux incident_flux)) k
        = Some (db_of (if float_ne0 i then PyFloat (- r / i)
                       else PyInt 0)))
  /\ (forall k t i,
        nth_error trans_flux k = Some t -> nth_error incident_flux k = Some i ->
        nth_error (to_db (s21_of trans_flux incident_flux)) k
        = Some (db_of (if float_ne0 i then PyFloat (t / i) else PyInt 0)))
  /\ exists st,
       run_simulation cfg output_dir plot (initial_state w fuel) = Diverges st
       \/ exists results,
            run_simulation cfg output_dir plot (initial_state w fuel)
            = Returns results st.
Proof.
  rewrite !to_db_length, s11_of_length, s21_of_length.
  split; [reflexivity|]. split; [reflexivity|].
  split; [|split].
  - intros k r i Hr Hi. apply to_db_nth, s11_of_nth; assumption.
  - intros k t i Ht Hi. apply to_db_nth, s21_of_nth; assumption.
  - apply run_simulation_never_raises.
Qed.

(** C3 as stated fails: with one incident bin and two reflected bins the
    script raises nothing and returns a single S11 bin. *)
Lemma C3_counterexample :
  List.length (mismatched_fluxes 0) = 1%nat
  /\ List.length (mismatched_fluxes 1) = 2%nat
  /\ @to_db np_stub (s11_of (mismatched_fluxes 1) (mismatched_fluxes 0))
     = [PyFloat (10 * log10_stub 0.5)]
  /\ exists results st,
       @run_simulation np_stub quiet_solver config "output" false
         (initial_state (sv := quiet_solver) tt 0)
       = Returns results st
       /\ s11_db results = [PyFloat (10 * log10_stub 0.5)].
Proof.
  split; [reflexivity|]. split; [reflexivity|]. split; [reflexivity|].
  do 2 eexists. split; [vm_compute; reflexivity|]. reflexivity.
Qed.

(** * Further properties

    Properties of the parts of the two scripts that the claims above do not
    reach: the geometry and the monitors as shapes in space, the data flow
    from the solver's answers to the saved arrays, the entry point, and the
    run of the exported script. *)

(** ** Signs in binary64

    Rounding to nearest is symmetric: negating the operands negates the
    result, bit for bit. *)

Lemma binary_round_aux_opp sx mx ex lx :
  binary_round_aux prec emax (negb sx) mx ex lx
  = SFopp (binary_round_aux prec emax sx mx ex lx).
Proof.
  unfold binary_round_aux.
  destruct (shr_fexp prec emax mx ex lx) as [mrs' e'].
  destruct (shr_fexp prec emax _ e' loc_Exact) as [mrs'' e''].
  destruct (shr_m mrs''); [reflexivity | | reflexivity].
  destruct (e'' <=? emax - prec)%Z; reflexivity.
Qed.

Lemma binary_round_opp mx ex :
  binary_round prec emax true mx ex
  = SFopp (binary_round prec emax false mx ex).
Proof.
  unfold binary_round.
  destruct (shl_align mx ex _) as [mz ez].
  apply (binary_round_aux_opp false).
Qed.

Lemma binary_round_aux_sign_clear mx ex lx :
  sign_clear (binary_round_aux prec emax false mx ex lx) = true.
Proof.
  unfold binary_round_aux.
  destruct (shr_fexp prec emax mx ex lx) as [mrs' e'].
  destruct (shr_fexp prec emax _ e' loc_Exact) as [mrs'' e''].
  destruct (shr_m mrs''); [reflexivity | | reflexivity].
  destruct (e'' <=? emax - prec)%Z; reflexivity.
Qed.

Lemma SFdiv_opp x y :
  SFdiv prec emax (SFopp x) y = SFopp (SFdiv prec emax x y).
Proof.
  destruct x as [sx|sx| |sx mx ex], y as [sy|sy| |sy my ey]; simpl;
    try reflexivity; try (destruct sx, sy; reflexivity).
  destruct (SFdiv_core_binary prec emax (Zpos mx) ex (Zpos my) ey)
    as [[mz ez] lz].
  replace (xorb (negb sx) sy) with (negb (xorb sx sy))
    by (destruct sx, sy; reflexivity).
  apply binary_round_aux_opp.
Qed.

Lemma SFdiv_sign_clear x my ey :
  sign_clear x = true ->
  sign_clear (SFdiv prec emax x (S754_finite false my ey)) = true.
Proof.
  destruct x as [sx|sx| |sx mx ex]; simpl; intros H;
    try (destruct sx; [discriminate H | reflexivity]); try reflexivity.
  destruct sx; [discriminate H|].
  destruct (SFdiv_core_binary prec emax (Zpos mx) ex (Zpos my) ey)
    as [[mz ez] lz].
  apply binary_round_aux_sign_clear.
Qed.

(** With both sign bits clear the sum is not an exact cancellation, and
    [(-x) - y] is the opposite of [x + y]. *)
Lemma SFsub_opp_l x y :
  sign_clear x = true -> sign_clear y = true ->
  SFsub prec emax (SFopp x) y = SFopp (SFadd prec emax x y).
Proof.
  destruct x as [sx|sx| |sx mx ex], y as [sy|sy| |sy my ey]; simpl;
    intros Hx Hy;
    try (destruct sx; [discriminate Hx|]);
    try (destruct sy; [discriminate Hy|]);
    try reflexivity.
  cbn [cond_Zopp negb].
  destruct (shl_align mx ex (Z.min ex ey)) as [ax e1].
  destruct (shl_align my ey (Z.min ex ey)) as [ay e2].
  cbn [fst].
  change (Z.opp (Zpos ax) - Zpos ay)%Z with (Zneg (ax + ay)).
  change (Zpos ax + Zpos ay)%Z with (Zpos (ax + ay)).
  cbn [binary_normalize]. apply binary_round_opp.
Qed.

Lemma opp_div r i : (- r / i)%float = (- (r / i))%float.
Proof.
  apply Prim2SF_inj. rewrite opp_spec, !div_spec, opp_spec.
  apply SFdiv_opp.
Qed.

Lemma abs_opp x : abs (- x) = abs x.
Proof.
  apply Prim2SF_inj. rewrite !abs_spec, opp_spec.
  destruct (Prim2SF x); reflexivity.
Qed.

Lemma eqb0_opp x : (- x =? 0)%float = (x =? 0)%float.
Proof.
  rewrite !eqb_spec, opp_spec.
  change (Prim2SF 0) with (S754_zero false).
  destruct (Prim2SF x) as [s|s| |s m e]; try reflexivity;
    destruct s; reflexivity.
Qed.

Lemma pos_sign_clear x :
  (0 <? x)%float = true -> sign_clear (Prim2SF x) = true.
Proof.
  rewrite ltb_spec. change (Prim2SF 0) with (S754_zero false).
  destruct (Prim2SF x) as [s|s| |s m e]; try discriminate;
    destruct s; try discriminate; reflexivity.
Qed.

Lemma half_sign_clear x :
  sign_clear (Prim2SF x) = true -> sign_clear (Prim2SF (x / 2)) = true.
Proof.
  intros H. rewrite div_spec.
  change (Prim2SF 2) with (S754_finite false 4503599627370496 (-51)).
  apply SFdiv_sign_clear. exact H.
Qed.

(** The two expressions the scripts place mirror images with. *)
Lemma mirror_sum a b :
  sign_clear (Prim2SF a) = true -> sign_clear (Prim2SF b) = true ->
  (- a / 2 - b)%float = (- (a / 2 + b))%float.
Proof.
  intros Ha Hb. rewrite opp_div.
  apply Prim2SF_inj. rewrite sub_spec, !opp_spec, add_spec.
  apply SFsub_opp_l; [apply half_sign_clear; exact Ha | exact Hb].
Qed.

(** ** Sizes in binary64 *)

Section Binary64Sizes.
Local Open Scope R_scope.

Lemma bpow_m53 : bpow (-53) = / 9007199254740992.
Proof.
  change (-53)%Z with (Z.opp 53). rewrite bpow_opp, (bpow_IZR 53) by lia.
  reflexivity.
Qed.

Lemma value_300 : IZR (Zpos 5277655813324800) * bpow (-44) = 300.
Proof.
  change (-44)%Z with (Z.opp 44). rewrite bpow_opp, (bpow_IZR 44) by lia.
  change (2 ^ 44)%Z with 17592186044416%Z. lra.
Qed.

Lemma normal_pos m e :
  (2 ^ 52 <= Zpos m < 2 ^ 53)%Z -> 0 < IZR (Zpos m) * bpow e.
Proof.
  intros Hm. pose proof (bpow_pos e).
  assert (0 < IZR (Zpos m)) by (apply IZR_lt; lia). nra.
Qed.

(** Adding a constant between 4 and [2^54] to a length of at most [2^53]
    gives a strictly greater float. *)
Lemma add_const_gt h c mc ec :
  Prim2SF c = S754_finite false mc ec ->
  4 <= IZR (Zpos mc) * bpow ec <= 18014398509481984 ->
  (0 <=? h)%float = true -> (h <=? 0x1p53)%float = true ->
  (h <? h + c)%float = true.
Proof.
  intros Hc HC H0 H1. rewrite leb_spec in H0, H1. rewrite ltb_spec, add_spec.
  change (Prim2SF 0) with (S754_zero false) in H0.
  change (Prim2SF 0x1p53) with (S754_finite false 4503599627370496 1) in H1.
  rewrite Hc.
  pose proof (Prim2SF_valid h) as Hv.
  destruct (Prim2SF h) as [s|s| |s mx ex].
  - reflexivity.
  - destruct s; [discriminate H0 | discriminate H1].
  - discriminate H0.
  - destruct s; [discriminate H0|].
    assert (Hex : (ex <= 1)%Z).
    { unfold SFleb, SFcompare in H1.
      destruct (Z.compare_spec ex 1); [lia | lia | discriminate]. }
    assert (Hmx : (0 < Zpos mx < 2 ^ 53)%Z).
    { split; [lia|].
      pose proof Hv as Hv'.
      unfold valid_binary, bounded, canonical_mantissa in Hv'.
      apply andb_prop in Hv'. destruct Hv' as [Hv' _].
      apply Z.eqb_eq in Hv'. rewrite fexp64 in Hv'.
      pose proof (Zdigits2_bounds mx) as [_ Hb].
      assert (Zdigits2 (Zpos mx) <= 53)%Z by (unfold Zdigits2; lia).
      eapply Z.lt_le_trans; [exact Hb|].
      apply Z.pow_le_mono_r; lia. }
    set (H := IZR (Zpos mx) * bpow ex).
    set (C := IZR (Zpos mc) * bpow ec) in *.
    assert (HH : 0 < H < 18014398509481984).
    { unfold H. pose proof (bpow_pos ex).
      pose proof (bpow_le ex 1 Hex) as Hb1.
      replace (bpow 1) with 2 in Hb1 by (unfold bpow; simpl; lra).
      destruct Hmx as [Hm0 Hm1]. apply IZR_lt in Hm0, Hm1.
      change (IZR (2 ^ 53)) with 9007199254740992 in Hm1. nra. }
    destruct (SFadd_pos mx ex mc ec) as (m & e & E & Hm & He & Herr).
    { fold H C. split.
      - apply Rle_trans with 1; [|lra].
        change (-1022)%Z with (Z.opp 1022). rewrite bpow_opp.
        pose proof (bpow_ge_1 1022 ltac:(lia)).
        rewrite <- Rinv_1. apply Rinv_le_contravar; lra.
      - apply Rlt_le_trans with (bpow 56).
        + rewrite (bpow_IZR 56) by lia.
          change (IZR (2 ^ 56)) with 72057594037927936. lra.
        + apply bpow_le. lia. }
    unfold SF64add. rewrite E.
    apply SFltb_of_Rlt; try assumption.
    fold H C in Herr |- *.
    rewrite bpow_m53 in Herr. apply Rabs_le_inv in Herr. lra.
Qed.

(** Scaling a positive normal length by a normal factor below one gives a
    positive, strictly smaller float. *)
Lemma mul_fraction_lt g c mc ec :
  Prim2SF c = S754_finite false mc ec ->
  (2 ^ 52 <= Zpos mc < 2 ^ 53)%Z ->
  (-53 <= ec <= -52)%Z ->
  IZR (Zpos mc) * bpow ec <= 9 / 10 ->
  (0x1p-1021 <=? g)%float = true -> (g <=? 0x1p1020)%float = true ->
  (0 <? g * c)%float = true /\ (g * c <? g)%float = true.
Proof.
  intros Hc Hmc Hec HC Hlo Hhi.
  destruct (float_between 0x1p-1021 0x1p1020 g 4503599627370496
              (-1073) 4503599627370496 968 eq_refl eq_refl ltac:(lia) Hlo Hhi)
    as (m & e & Hf & Hm & He).
  pose proof (Prim2SF_valid (g * c)) as Hv.
  rewrite !ltb_spec. rewrite mul_spec in Hv |- *.
  rewrite Hf, Hc in Hv |- *.
  change (Prim2SF 0) with (S754_zero false).
  unfold SF64mul in Hv |- *.
  destruct (SFmul_normal false m e false mc ec Hm Hmc ltac:(lia))
    as (m1 & e1 & E1 & Hm1 & He1 & Herr1).
  rewrite E1 in Hv |- *. cbn [xorb] in Hv |- *.
  split; [reflexivity|].
  apply SFltb_of_Rlt; [exact Hv | exact Hm | lia |].
  rewrite bpow_m53 in Herr1. apply Rabs_le_inv in Herr1.
  pose proof (normal_pos m e Hm) as HF.
  pose proof (normal_pos mc ec Hmc) as HC0.
  set (F := IZR (Zpos m) * bpow e) in *.
  set (C := IZR (Zpos mc) * bpow ec) in *.
  assert (F * C <= F * (9 / 10)) by nra.
  lra.
Qed.

(** ** Unit conversion, each way *)

(** X1: on frequencies from [2^-1013] to [2^1013], [ghz_to_meep] is the
    quotient by 300 and [meep_to_ghz] the product by 300, each rounded once:
    the result is within [2^-53] of the exact value, relatively, and it is
    positive. *)
Theorem X1_conversions_correctly_rounded f :
  (0x1p-1013 <=? f)%float = true -> (f <=? 0x1p1013)%float = true ->
  0 < F2R f
  /\ Rabs (F2R (ghz_to_meep f) - F2R f / 300) <= bpow (-53) * (F2R f / 300)
  /\ Rabs (F2R (meep_to_ghz f) - F2R f * 300) <= bpow (-53) * (F2R f * 300)
  /\ (0 <? ghz_to_meep f)%float = true
  /\ (0 <? meep_to_ghz f)%float = true.
Proof.
  intros Hlo Hhi.
  destruct (float_between 0x1p-1013 0x1p1013 f 4503599627370496 (-1065)
              4503599627370496 961 eq_refl eq_refl ltac:(lia) Hlo Hhi)
    as (m & e & Hf & Hm & He).
  unfold meep_to_ghz, ghz_to_meep, F2R.
  rewrite !ltb_spec, div_spec, mul_spec, Hf.
  change (Prim2SF 300) with (S754_finite false 5277655813324800 (-44)).
  change (Prim2SF 0) with (S754_zero false).
  unfold SF64mul, SF64div.
  destruct (SFdiv_normal false m e false 5277655813324800 (-44) Hm
              ltac:(lia) ltac:(lia))
    as (m1 & e1 & E1 & Hm1 & He1 & Herr1).
  destruct (SFmul_normal false m e false 5277655813324800 (-44) Hm
              ltac:(lia) ltac:(lia))
    as (m2 & e2 & E2 & Hm2 & He2 & Herr2).
  rewrite E1, E2. cbn [SF2R xorb].
  rewrite value_300 in Herr1, Herr2.
  split; [apply normal_pos, Hm|].
  split; [exact Herr1|]. split; [exact Herr2|].
  split; reflexivity.
Qed.

(** The script's centre frequency. *)
Lemma X1_conversions_correctly_rounded_witness :
  (0x1p-1013 <=? 5)%float = true
  /\ (5 <=? 0x1p1013)%float = true
  /\ Rabs (F2R (ghz_to_meep 5) - F2R 5 / 300) <= bpow (-53) * (F2R 5 / 300)
  /\ (0 <? meep_to_ghz 5)%float = true.
Proof.
  split; [reflexivity|]. split; [reflexivity|].
  pose proof (X1_conversions_correctly_rounded 5%float eq_refl eq_refl) as H.
  split; apply H.
Defined.

(** X2: the round trip in the other direction.  For every solver frequency
    [m] from [2^-1021] to [2^1013], converting to GHz and back reproduces
    [m] within the relative tolerance [1e-9]. *)
Theorem X2_meep_ghz_roundtrip m :
  (0x1p-1021 <=? m)%float = true -> (m <=? 0x1p1013)%float = true ->
  0 < F2R m
  /\ Rabs (F2R (ghz_to_meep (meep_to_ghz m)) - F2R m) <= rel_tol * F2R m.
Proof.
  intros Hlo Hhi.
  destruct (float_between 0x1p-1021 0x1p1013 m 4503599627370496 (-1073)
              4503599627370496 961 eq_refl eq_refl ltac:(lia) Hlo Hhi)
    as (mm & e & Hf & Hm & He).
  unfold meep_to_ghz, ghz_to_meep, F2R.
  rewrite div_spec, mul_spec, Hf.
  change (Prim2SF 300) with (S754_finite false 5277655813324800 (-44)).
  unfold SF64mul, SF64div.
  destruct (SFmul_normal false mm e false 5277655813324800 (-44) Hm
              ltac:(lia) ltac:(lia))
    as (m1 & e1 & E1 & Hm1 & He1 & Herr1).
  rewrite E1.
  destruct (SFdiv_normal (xorb false false) m1 e1 false 5277655813324800
              (-44) Hm1 ltac:(lia) ltac:(lia))
    as (m2 & e2 & E2 & Hm2 & He2 & Herr2).
  rewrite E2. cbn [SF2R xorb].
  rewrite value_300, bpow_m53 in Herr1, Herr2.
  pose proof (normal_pos mm e Hm) as HF.
  set (F := IZR (Zpos mm) * bpow e) in *.
  set (G1 := IZR (Zpos m1) * bpow e1) in *.
  set (G := IZR (Zpos m2) * bpow e2) in *.
  split; [exact HF|].
  apply Rabs_le_inv in Herr1. apply Rabs_le_inv in Herr2.
  unfold rel_tol. apply Rabs_le.
  assert (HQ : G1 / 300 * 300 = G1) by (field; lra).
  assert (HG1 : 0 < G1) by nra.
  assert (0 < G1 / 300) by (apply Rdiv_lt_0_compat; lra).
  split; nra.
Qed.

(** The solver frequency of 5 GHz. *)
Lemma X2_meep_ghz_roundtrip_witness :
  (0x1p-1021 <=? ghz_to_meep 5)%float = true
  /\ (ghz_to_meep 5 <=? 0x1p1013)%float = true
  /\ Rabs (F2R (ghz_to_meep (meep_to_ghz (ghz_to_meep 5)))
           - F2R (ghz_to_meep 5))
     <= rel_tol * F2R (ghz_to_meep 5).
Proof.
  split; [reflexivity|]. split; [reflexivity|].
  apply (X2_meep_ghz_roundtrip (ghz_to_meep 5) eq_refl eq_refl).
Defined.

End Binary64Sizes.

(** ** The resonator in space *)

(** X3: the two pads are mirror images in the plane [x = 0].  For every
    configuration with a positive gap and a positive pad length,
    [build_geometry] starts with two copper blocks of the same size whose
    centres have opposite [x], bit for bit, and the same [y] and [z]. *)
Theorem X3_pads_mirror_each_other cfg :
  (0 <? gap cfg)%float = true -> (0 <? pad_length cfg)%float = true ->
  exists c_left c_right sz,
    nth_error (build_geometry cfg) 0 = Some (Block c_left sz copper)
    /\ nth_error (build_geometry cfg) 1 = Some (Block c_right sz copper)
    /\ vx c_left = (- vx c_right)%float
    /\ vy c_left = vy c_right
    /\ vz c_left = vz c_right.
Proof.
  intros Hg Hp. do 3 eexists. split; [reflexivity|]. split; [reflexivity|].
  cbn [vx vy vz]. split; [|split; reflexivity].
  apply mirror_sum; [apply pos_sign_clear, Hg|].
  apply half_sign_clear, pos_sign_clear, Hp.
Qed.

(** The script's configuration: pads centred at -13750 and 13750. *)
Lemma X3_pads_mirror_each_other_witness :
  (0 <? gap config)%float = true
  /\ (0 <? pad_length config)%float = true
  /\ exists c_left c_right sz,
       nth_error (build_geometry config) 0 = Some (Block c_left sz copper)
       /\ nth_error (build_geometry config) 1 = Some (Block c_right sz copper)
       /\ vx c_left = (- vx c_right)%float
       /\ vy c_left = vy c_right
       /\ vz c_left = vz c_right.
Proof.
  split; [reflexivity|]. split; [reflexivity|].
  apply (X3_pads_mirror_each_other config); reflexivity.
Defined.

(** X4: the bridge spans the gap.  The third primitive is a block centred
    on the axis ([x = 0], [y = 0]) whose extent along [x] is [gap + 4000];
    for every gap from 0 to [2^53] that extent is strictly greater than the
    gap, so the bridge reaches over both pads. *)
Theorem X4_bridge_spans_gap cfg :
  (0 <=? gap cfg)%float = true -> (gap cfg <=? 0x1p53)%float = true ->
  exists c sz,
    nth_error (build_geometry cfg) 2 = Some (Block c sz copper)
    /\ vx c = 0%float /\ vy c = 0%float
    /\ vx sz = (gap cfg + 4000)%float
    /\ (gap cfg <? vx sz)%float = true.
Proof.
  intros H0 H1. do 2 eexists. split; [reflexivity|].
  split; [reflexivity|]. split; [reflexivity|]. split; [reflexivity|].
  cbn [vx].
  apply (add_const_gt (gap cfg) (4 * MM_TO_UM)%float 8796093022208000 (-41));
    [reflexivity | | exact H0 | exact H1].
  change (-41)%Z with (Z.opp 41). rewrite bpow_opp, (bpow_IZR 41) by lia.
  change (2 ^ 41)%Z with 2199023255552%Z. lra.
Qed.

(** The script's configuration: a gap of 2500 under a bridge of 6500. *)
Lemma X4_bridge_spans_gap_witness :
  (0 <=? gap config)%float = true
  /\ (gap config <=? 0x1p53)%float = true
  /\ exists c sz,
       nth_error (build_geometry config) 2 = Some (Block c sz copper)
       /\ vx c = 0%float /\ vy c = 0%float
       /\ vx sz = (gap config + 4000)%float
       /\ (gap config <? vx sz)%float = true.
Proof.
  split; [reflexivity|]. split; [reflexivity|].
  apply (X4_bridge_spans_gap config); reflexivity.
Defined.

Section SpaceFacts.
Context {np : Numpy} {sv : Solver}.

(** X5: the current source lies inside the gap.  [create_simulation]
    creates one simulation with a single [Ez] source centred on the axis at
    half the bridge thickness; for a gap and a bridge width from [2^-1021]
    to [2^1020] its extent along [x] is positive and strictly smaller than
    the gap, and its extent along [y] positive and strictly smaller than
    the bridge width. *)
Theorem X5_source_inside_gap cfg output_dir st :
  (0x1p-1021 <=? gap cfg)%float = true ->
  (gap cfg <=? 0x1p1020)%float = true ->
  (0x1p-1021 <=? bridge_w cfg)%float = true ->
  (bridge_w cfg <=? 0x1p1020)%float = true ->
  exists args s st',
    create_simulation cfg output_dir st
    = Returns (st_sims st, ghz_to_meep (freq_center_ghz cfg),
               ghz_to_meep (freq_width_ghz cfg)) st'
    /\ st_trace st' = st_trace st ++ [EvSimulation (st_sims st) args]
    /\ sources args = [s]
    /\ src_center s = (mkVector3 0 0 (bridge_t cfg / 2))%float
    /\ (0 <? vx (src_size s))%float = true
    /\ (vx (src_size s) <? gap cfg)%float = true
    /\ (0 <? vy (src_size s))%float = true
    /\ (vy (src_size s) <? bridge_w cfg)%float = true
    /\ vz (src_size s) = 0%float.
Proof.
  intros Hg0 Hg1 Hb0 Hb1. do 3 eexists.
  split; [reflexivity|]. split; [reflexivity|]. split; [reflexivity|].
  split; [reflexivity|]. cbn [src_size vx vy vz].
  destruct (mul_fraction_lt (gap cfg) 0.8%float 7205759403792794 (-53)
              eq_refl ltac:(lia) ltac:(lia)) as [A B]; try assumption.
  { change (-53)%Z with (Z.opp 53). rewrite bpow_opp, (bpow_IZR 53) by lia.
    change (2 ^ 53)%Z with 9007199254740992%Z. lra. }
  destruct (mul_fraction_lt (bridge_w cfg) 0.5%float 4503599627370496 (-53)
              eq_refl ltac:(lia) ltac:(lia)) as [C D]; try assumption.
  { change (-53)%Z with (Z.opp 53). rewrite bpow_opp, (bpow_IZR 53) by lia.
    change (2 ^ 53)%Z with 9007199254740992%Z. lra. }
  repeat split; assumption.
Qed.

(** X6: the two flux monitors of the main run are mirror images in the
    plane [x = 0].  For every configuration with a positive gap,
    [setup_monitors] adds the reflection monitor, then the transmission
    monitor; their centres have opposite [x], bit for bit, and the same [y]
    and [z]; both are planes normal to [x] of the same size, with the same
    centre frequency, width and number of bins. *)
Theorem X6_monitors_mirror_each_other sim cfg fcen fwidth st :
  (0 <? gap cfg)%float = true ->
  exists spec_r spec_t st',
    setup_monitors sim cfg fcen fwidth st
    = Returns {| refl := st_fluxes st; trans := S (st_fluxes st) |} st'
    /\ st_trace st'
       = st_trace st ++ [EvAddFlux sim (st_fluxes st) spec_r;
                         EvAddFlux sim (S (st_fluxes st)) spec_t]
    /\ vx (fr_center (fs_region spec_r))
       = (- vx (fr_center (fs_region spec_t)))%float
    /\ vy (fr_center (fs_region spec_r)) = vy (fr_center (fs_region spec_t))
    /\ vz (fr_center (fs_region spec_r)) = vz (fr_center (fs_region spec_t))
    /\ fr_size (fs_region spec_r) = fr_size (fs_region spec_t)
    /\ vx (fr_size (fs_region spec_r)) = 0%float
    /\ (fs_fcen spec_r, fs_fwidth spec_r, fs_nfreq spec_r)
       = (fs_fcen spec_t, fs_fwidth spec_t, fs_nfreq spec_t).
Proof.
  intros Hg. do 3 eexists. split; [reflexivity|].
  split; [simpl; rewrite <- app_assoc; reflexivity|].
  cbn [fs_region fr_center fr_size vx vy vz fs_fcen fs_fwidth fs_nfreq].
  split; [|repeat split].
  apply mirror_sum; [apply pos_sign_clear, Hg | reflexivity].
Qed.

End SpaceFacts.

(** The script's configuration: a source of 2000 by 4000 in a gap of 2500
    under a bridge 8000 wide. *)
Lemma X5_source_inside_gap_witness :
  (0x1p-1021 <=? gap config)%float = true
  /\ (gap config <=? 0x1p1020)%float = true
  /\ (0x1p-1021 <=? bridge_w config)%float = true
  /\ (bridge_w config <=? 0x1p1020)%float = true
  /\ exists args s st',
       @create_simulation quiet_solver config "output"
         (initial_state (sv := quiet_solver) tt 0)
       = Returns (0%nat, ghz_to_meep 5, ghz_to_meep 4) st'
       /\ sources args = [s]
       /\ (vx (src_size s) <? gap config)%float = true
       /\ (vy (src_size s) <? bridge_w config)%float = true.
Proof.
  split; [reflexivity|]. split; [reflexivity|]. split; [reflexivity|].
  split; [reflexivity|].
  destruct (@X5_source_inside_gap quiet_solver config "output"
              (initial_state (sv := quiet_solver) tt 0)
              eq_refl eq_refl eq_refl eq_refl)
    as (args & s & st' & H1 & _ & H3 & _ & _ & H6 & _ & H8 & _).
  exists args, s, st'. repeat split; assumption.
Defined.

(** The script's configuration: monitors at -2250 and 2250. *)
Lemma X6_monitors_mirror_each_other_witness :
  (0 <? gap config)%float = true
  /\ exists spec_r spec_t st',
       @setup_monitors quiet_solver 1 config (ghz_to_meep 5) (ghz_to_meep 4)
         (initial_state (sv := quiet_solver) tt 0)
       = Returns {| refl := 0; trans := 1 |} st'
       /\ vx (fr_center (fs_region spec_r))
          = (- vx (fr_center (fs_region spec_t)))%float
       /\ fr_size (fs_region spec_r) = fr_size (fs_region spec_t).
Proof.
  split; [reflexivity|].
  destruct (@X6_monitors_mirror_each_other quiet_solver 1%nat config
              (ghz_to_meep 5) (ghz_to_meep 4)
              (initial_state (sv := quiet_solver) tt 0) eq_refl)
    as (spec_r & spec_t & st' & H1 & _ & H3 & _ & _ & H6 & _).
  exists spec_r, spec_t, st'. repeat split; assumption.
Defined.

(** ** The data flow of the script (claim C4) *)

(** Normal form of the states of an execution. *)
Ltac norm_state :=
  cbv beta iota zeta delta
    [with_fuel with_world eval_step_funcs fold_left step_funcs
     until_after_sources st_world st_trace st_fuel st_sims st_fluxes
     st_field_t st_field_ez final_state app] in *.

Section FlowFacts.
Context {np : Numpy} {sv : Solver}.

(** [capture_field] appends to both lists of [field_data] at once. *)
Lemma eval_step_func_fields sim f : forall vol st,
  List.length (st_field_t st) = List.length (st_field_ez st) ->
  List.length (st_field_t (eval_step_func sim vol f st))
  = List.length (st_field_ez (eval_step_func sim vol f st)).
Proof.
  induction f as [interval g IH | v g IH | | cfg]; intros vol st H; simpl.
  - destruct (sv_due sim interval (st_world st)); [apply IH|]; exact H.
  - apply IH, H.
  - exact H.
  - rewrite !length_app, H. reflexivity.
Qed.

Lemma eval_step_funcs_fields sim fs : forall st,
  List.length (st_field_t st) = List.length (st_field_ez st) ->
  List.length (st_field_t (eval_step_funcs sim fs st))
  = List.length (st_field_ez (eval_step_funcs sim fs st)).
Proof.
  unfold eval_step_funcs.
  induction fs as [|f fs IH]; intros st H; simpl; [exact H|].
  apply IH, eval_step_func_fields, H.
Qed.

Lemma run_loop_fields n sim args : forall st,
  List.length (st_field_t st) = List.length (st_field_ez st) ->
  List.length (st_field_t (final_state (run_loop n sim args st)))
  = List.length (st_field_ez (final_state (run_loop n sim args st))).
Proof.
  induction n as [|n IH]; intros st H; simpl;
    destruct (sv_stop sim (until_after_sources args) (st_world st)); simpl;
    try exact H; try (apply eval_step_funcs_fields, H).
  apply IH. simpl. apply eval_step_funcs_fields, H.
Qed.

(** A run with no step function that returns has taken [k] solver steps,
    [k] being the first rank at which the stopping condition holds. *)
Lemma run_loop_returns_steps n sim cond : forall st st',
  run_loop n sim {| step_funcs := []; until_after_sources := cond |} st
  = Returns tt st' ->
  exists k,
    (k <= n)%nat
    /\ st_world st' = steps sim k (st_world st)
    /\ sv_stop sim cond (st_world st') = true
    /\ forall j, (j < k)%nat ->
         sv_stop sim cond (steps sim j (st_world st)) = false.
Proof.
  induction n as [|n IH]; intros st st'; simpl;
    destruct (sv_stop sim cond (st_world st)) eqn:E; try discriminate.
  - intros [= <-]. exists 0%nat. simpl. repeat split; [lia | exact E | lia].
  - intros [= <-]. exists 0%nat. simpl. repeat split; [lia | exact E | lia].
  - intros H. apply IH in H as (k & Hk & Hw & Hs & Hj).
    exists (S k). rewrite steps_succ. simpl in Hw, Hj.
    repeat split; [lia | exact Hw | exact Hs |].
    intros [|j] Hlt; [exact E|]. rewrite steps_succ. apply Hj. lia.
Qed.

(** A run whose stopping condition holds after [k] iterations returns,
    having used at most [k] of the steps it was allowed. *)
Lemma run_loop_returns_within n sim args : forall k st,
  (k <= n)%nat ->
  sv_stop sim (until_after_sources args)
    (st_world (Nat.iter k (loop_body sim args) st)) = true ->
  exists st',
    run_loop n sim args st = Returns tt st' /\ (n - k <= st_fuel st')%nat.
Proof.
  induction n as [|n IH]; intros k st Hk Hstop; cbn [run_loop].
  - assert (k = 0%nat) as -> by lia. simpl in Hstop. rewrite Hstop.
    eexists. split; [reflexivity | unfold with_fuel; cbn [st_fuel]; lia].
  - destruct (sv_stop sim (until_after_sources args) (st_world st)) eqn:E.
    + eexists. split; [reflexivity | unfold with_fuel; cbn [st_fuel]; lia].
    + destruct k as [|k]; [simpl in Hstop; congruence|].
      rewrite Nat.iter_succ_r in Hstop.
      destruct (IH k _ ltac:(lia) Hstop) as (st' & Hr & Hf).
      exists st'. split; [exact Hr | lia].
Qed.

(** Every call of an execution, with its arguments. *)
Lemma run_simulation_calls cfg output_dir plot w fuel :
  exists cell,
  let fcen := ghz_to_meep (freq_center_ghz cfg) in
  let fwidth := ghz_to_meep (freq_width_ghz cfg) in
  let gap_centre := (mkVector3 0 0 (bridge_t cfg / 2))%float in
  let args :=
    {| cell_size := cell; geometry := build_geometry cfg;
       sources :=
         [ {| src := {| frequency := fcen; fwidth := fwidth |};
              component := Ez; src_center := gap_centre;
              src_size :=
                (mkVector3 (gap cfg * 0.8) (bridge_w cfg * 0.5) 0)%float |} ];
       boundary_layers := [ {| thickness := pml_thickness cfg |} ];
       sim_resolution := resolution cfg; default_material := air |} in
  let spec_r :=
    {| fs_fcen := fcen; fs_fwidth := fwidth; fs_nfreq := 50;
       fs_region :=
         {| fr_center :=
              (mkVector3 (- gap cfg / 2 - 1000) 0 (bridge_t cfg / 2))%float;
            fr_size :=
              (mkVector3 0 (bridge_w cfg) (bridge_t cfg * 3))%float |} |} in
  let spec_t :=
    {| fs_fcen := fcen; fs_fwidth := fwidth; fs_nfreq := 50;
       fs_region :=
         {| fr_center :=
              (mkVector3 (gap cfg / 2 + 1000) 0 (bridge_t cfg / 2))%float;
            fr_size :=
              (mkVector3 0 (bridge_w cfg) (bridge_t cfg * 3))%float |} |} in
  let run0 :=
    {| step_funcs := []; until_after_sources := decay_criterion cfg |} in
  let run1 :=
    {| step_funcs :=
         [ at_every 1 (capture_field cfg);
           at_every slice_interval
             (in_volume
                {| vol_center := gap_centre;
                   vol_size := (mkVector3 60000 30000 0)%float |}
                output_efield_z) ];
       until_after_sources := decay_criterion cfg |} in
  let t_ref :=
    [EvMakedirs output_dir; EvSimulation 0 args; EvSetGeometry 0 [];
     EvAddFlux 0 0 spec_r; EvRunStart 0 run0] in
  let t_main data :=
    [EvRunDone 0; EvGetFluxes 0; EvGetFluxFreqs 0; EvResetMeep 0;
     EvGetFluxData 0 0 data; EvSimulation 1 args; EvAddFlux 1 1 spec_r;
     EvAddFlux 1 2 spec_t; EvLoadMinusFluxData 1 1 data;
     EvRunStart 1 run1] in
  let o := run_simulation cfg output_dir plot (initial_state w fuel) in
  (exists st, o = Diverges st /\ st_trace st = t_ref)
  \/ (exists data st,
        o = Diverges st /\ st_trace st = t_ref ++ t_main data)
  \/ (exists data results st,
        o = Returns results st
        /\ st_trace st
           = t_ref ++ t_main data
             ++ [EvRunDone 1; EvGetFluxes 1; EvGetFluxes 2;
                 EvSavez (output_dir ++ "/results.npz") results]
             ++ (if plot then [EvPlotResults results output_dir] else [])).
Proof.
  eexists. cbv zeta. unfold decay_criterion.
  exec_script.
  run_cases.
  - run_cases.
    + right; right. destruct plot; exec_script;
        do 3 eexists; (split; [reflexivity|]); reflexivity.
    + right; left. do 2 eexists. split; [reflexivity|].
      rewrite Htrace0. reflexivity.
  - left. eexists. split; [reflexivity|]. rewrite Htrace. reflexivity.
Qed.

(** What a returning execution returns, in terms of the solver's answers:
    [w_ref] is the world in which the reference run ended, [w_main] the one
    in which the main run ended. *)
Lemma run_simulation_returns cfg output_dir plot w fuel results st :
  run_simulation cfg output_dir plot (initial_state w fuel)
  = Returns results st ->
  exists args spec k w_ref w_main t ez,
    geometry args = build_geometry cfg
    /\ (k <= fuel)%nat
    /\ w_ref
       = steps 0 k
           (sv_add_flux 0 0 spec
              (sv_set_geometry 0 [] (sv_simulation 0 args w)))
    /\ sv_stop 0 (decay_criterion cfg) w_ref = true
    /\ results
       = {| freqs_ghz := map meep_to_ghz (sv_get_flux_freqs 0 w_ref);
            s11_db :=
              to_db (s11_of (sv_get_fluxes 1 w_main) (sv_get_fluxes 0 w_ref));
            s21_db :=
              to_db (s21_of (sv_get_fluxes 2 w_main) (sv_get_fluxes 0 w_ref));
            field_t := t; field_ez := map re ez |}
    /\ List.length t = List.length ez
    /\ In (EvLoadMinusFluxData 1 1
             (sv_get_flux_data 0 0 (sv_reset_meep 0 w_ref))) (st_trace st).
Proof.
  unfold decay_criterion.
  exec_script. run_cases; [|discriminate].
  apply run_loop_returns_steps in Hrun as (k & Hk & Hw & Hs & _).
  exec_script.
  match goal with
  | |- context [run_loop ?n ?s ?a ?st] =>
      pose proof (run_loop_fields n s a st eq_refl) as HF
  end.
  run_cases; [|discriminate].
  destruct plot; exec_script; intros [= <- <-];
    (do 2 eexists; exists k; do 4 eexists;
     refine (conj _ (conj Hk (conj Hw (conj Hs (conj eq_refl
              (conj HF _))))));
     [reflexivity | simpl; tauto]).
Qed.

(** A run that returns has stopped after some number [k] of iterations
    and ends in [run_end]. *)
Lemma run_loop_returns_iter n sim args : forall st st',
  run_loop n sim args st = Returns tt st' ->
  exists k,
    (k <= n)%nat
    /\ sv_stop sim (until_after_sources args)
         (st_world (Nat.iter k (loop_body sim args) st)) = true
    /\ st' = with_fuel (n - k) (run_end sim args k st).
Proof.
  induction n as [|n IH]; intros st st'; cbn [run_loop];
    destruct (sv_stop sim (until_after_sources args) (st_world st)) eqn:E;
    try discriminate.
  - intros [= <-]. exists 0%nat. repeat split; [lia | exact E].
  - intros [= <-]. exists 0%nat. repeat split; [lia | exact E].
  - intros H. apply IH in H as (k & Hk & Hs & ->).
    exists (S k). rewrite Nat.iter_succ_r. unfold run_end.
    rewrite Nat.iter_succ_r. repeat split; [lia | exact Hs].
Qed.

(** Without step functions an iteration is one solver step. *)
Lemma iter_loop_body_nil sim cond k : forall st,
  Nat.iter k (loop_body sim {| step_funcs := []; until_after_sources := cond |})
    st
  = with_world (steps sim k (st_world st)) st.
Proof.
  induction k as [|k IH]; intros st.
  - destruct st; reflexivity.
  - rewrite Nat.iter_succ, IH. unfold steps. rewrite Nat.iter_succ.
    destruct st; reflexivity.
Qed.

Lemma loop_body_frame sim args st : same_frame st (loop_body sim args st).
Proof.
  unfold loop_body.
  destruct (eval_step_funcs_frame sim (step_funcs args) st) as (A & B & C).
  repeat split; assumption.
Qed.

Lemma run_end_frame sim args k : forall st,
  same_frame st (run_end sim args k st).
Proof.
  unfold run_end. intros st.
  eapply same_frame_trans; [|apply eval_step_funcs_frame].
  induction k as [|k IH]; [apply same_frame_refl|].
  simpl. eapply same_frame_trans; [exact IH | apply loop_body_frame].
Qed.

(** An execution, world by world: the world [w_ref] in which the reference
    run ends, the state [st_start] in which the loop of the main run starts,
    and the state [st_end] in which it ends. *)
Lemma run_simulation_execution cfg output_dir plot w fuel :
  exists cell,
  let fcen := ghz_to_meep (freq_center_ghz cfg) in
  let fwidth := ghz_to_meep (freq_width_ghz cfg) in
  let gap_centre := (mkVector3 0 0 (bridge_t cfg / 2))%float in
  let args :=
    {| cell_size := cell; geometry := build_geometry cfg;
       sources :=
         [ {| src := {| frequency := fcen; fwidth := fwidth |};
              component := Ez; src_center := gap_centre;
              src_size :=
                (mkVector3 (gap cfg * 0.8) (bridge_w cfg * 0.5) 0)%float |} ];
       boundary_layers := [ {| thickness := pml_thickness cfg |} ];
       sim_resolution := resolution cfg; default_material := air |} in
  let spec_r :=
    {| fs_fcen := fcen; fs_fwidth := fwidth; fs_nfreq := 50;
       fs_region :=
         {| fr_center :=
              (mkVector3 (- gap cfg / 2 - 1000) 0 (bridge_t cfg / 2))%float;
            fr_size :=
              (mkVector3 0 (bridge_w cfg) (bridge_t cfg * 3))%float |} |} in
  let spec_t :=
    {| fs_fcen := fcen; fs_fwidth := fwidth; fs_nfreq := 50;
       fs_region :=
         {| fr_center :=
              (mkVector3 (gap cfg / 2 + 1000) 0 (bridge_t cfg / 2))%float;
            fr_size :=
              (mkVector3 0 (bridge_w cfg) (bridge_t cfg * 3))%float |} |} in
  let run0 :=
    {| step_funcs := []; until_after_sources := decay_criterion cfg |} in
  let run1 :=
    {| step_funcs :=
         [ at_every 1 (capture_field cfg);
           at_every slice_interval
             (in_volume
                {| vol_center := gap_centre;
                   vol_size := (mkVector3 60000 30000 0)%float |}
                output_efield_z) ];
       until_after_sources := decay_criterion cfg |} in
  let t_ref :=
    [EvMakedirs output_dir; EvSimulation 0 args; EvSetGeometry 0 [];
     EvAddFlux 0 0 spec_r; EvRunStart 0 run0] in
  let t_main data :=
    [EvRunDone 0; EvGetFluxes 0; EvGetFluxFreqs 0; EvResetMeep 0;
     EvGetFluxData 0 0 data; EvSimulation 1 args; EvAddFlux 1 1 spec_r;
     EvAddFlux 1 2 spec_t; EvLoadMinusFluxData 1 1 data;
     EvRunStart 1 run1] in
  let w0 :=
    sv_add_flux 0 0 spec_r (sv_set_geometry 0 [] (sv_simulation 0 args w)) in
  let o := run_simulation cfg output_dir plot (initial_state w fuel) in
  (exists st, o = Diverges st /\ st_trace st = t_ref)
  \/ exists k0,
       let w_ref := steps 0 k0 w0 in
       let data := sv_get_flux_data 0 0 (sv_reset_meep 0 w_ref) in
       let st_start :=
         {| st_world :=
              sv_load_minus_flux_data 1 1 data
                (sv_add_flux 1 2 spec_t
                   (sv_add_flux 1 1 spec_r
                      (sv_simulation 1 args (sv_reset_meep 0 w_ref))));
            st_trace := t_ref ++ t_main data;
            st_fuel := fuel - k0; st_sims := 2; st_fluxes := 3;
            st_field_t := []; st_field_ez := [] |} in
       (k0 <= fuel)%nat
       /\ sv_stop 0 (decay_criterion cfg) w_ref = true
       /\ ((exists st,
              run_loop (fuel - k0) 1 run1 st_start = Diverges st
              /\ o = Diverges st
              /\ st_trace st = t_ref ++ t_main data)
           \/ exists k1,
                let st_end := run_end 1 run1 k1 st_start in
                let results :=
                  {| freqs_ghz := map meep_to_ghz (sv_get_flux_freqs 0 w_ref);
                     s11_db :=
                       to_db (s11_of (sv_get_fluxes 1 (st_world st_end))
                                (sv_get_fluxes 0 w_ref));
                     s21_db :=
                       to_db (s21_of (sv_get_fluxes 2 (st_world st_end))
                                (sv_get_fluxes 0 w_ref));
                     field_t := st_field_t st_end;
                     field_ez := map re (st_field_ez st_end) |} in
                (k1 <= fuel - k0)%nat
                /\ sv_stop 1 (decay_criterion cfg)
                     (st_world (Nat.iter k1 (loop_body 1 run1) st_start))
                   = true
                /\ run_loop (fuel - k0) 1 run1 st_start
                   = Returns tt (with_fuel (fuel - k0 - k1) st_end)
                /\ exists st,
                     o = Returns results st
                     /\ st_trace st
                        = t_ref ++ t_main data
                          ++ [EvRunDone 1; EvGetFluxes 1; EvGetFluxes 2;
                              EvSavez (output_dir ++ "/results.npz") results]
                          ++ (if plot
                              then [EvPlotResults results output_dir]
                              else [])).
Proof.
  eexists. cbv zeta. unfold decay_criterion.
  exec_script.
  match goal with
  | |- context [run_loop ?n ?s ?a ?st] =>
      destruct (run_loop_frame n s a st) as ((Htr & _ & _) & Hraise);
      destruct (run_loop n s a st) as [[] st0 | e st0 | st0] eqn:Hrun
  end.
  - right.
    apply run_loop_returns_iter in Hrun as (k0 & Hk0 & Hs0 & ->).
    unfold run_end in *. rewrite iter_loop_body_nil in *.
    exists k0. clear Htr Hraise.
    norm_state.
    split; [exact Hk0|]. split; [exact Hs0|].
    match goal with
    | |- context [run_loop ?n ?s ?a ?st] =>
        destruct (run_loop_frame n s a st) as ((Htr & _ & _) & Hraise);
        pose proof (fun k => run_end_frame s a k st) as Hend;
        destruct (run_loop n s a st) as [[] st1 | e st1 | st1] eqn:Hrun
    end.
    + right.
      apply run_loop_returns_iter in Hrun as (k1 & Hk1 & Hs1 & ->).
      exists k1. specialize (Hend k1). destruct Hend as (Hend & _ & _).
      clear Htr Hraise. unfold run_end in *. norm_state.
      split; [exact Hk1|]. split; [exact Hs1|]. split; [reflexivity|].
      destruct plot; exec_script; eexists; (split; [reflexivity|]);
        rewrite Hend; reflexivity.
    + exfalso. eapply Hraise. reflexivity.
    + left. eexists. split; [reflexivity|]. split; [reflexivity|].
      norm_state. exact Htr.
  - exfalso. eapply Hraise. reflexivity.
  - left. eexists. split; [reflexivity|]. norm_state. exact Htr.
Qed.
End FlowFacts.

(** The three shapes of a trace, and membership in a trace. *)
Ltac trace_shapes H :=
  cbv zeta in H;
  destruct H as [(?st & ?Ho & ?Ht) | [(?data & ?st & ?Ho & ?Ht)
                                    | (?data & ?results & ?st & ?Ho & ?Ht)]].

Ltac in_cases :=
  repeat match goal with
         | Hin : _ \/ _ |- _ => destruct Hin as [Hin | Hin]
         | Hin : False |- _ => destruct Hin
         | Hin : In _ _ |- _ => progress simpl in Hin
         | Hin : @eq event _ _ |- _ =>
             first [discriminate Hin
                   | injection Hin; clear Hin; intros; subst]
         | Hin : @eq StepFunc _ _ |- _ =>
             first [discriminate Hin
                   | injection Hin; clear Hin; intros; subst]
         end.

Section FlowTheorems.
Context {np : Numpy} {sv : Solver}.

(** C4: in every execution the trace begins with the reference simulation,
    whose geometry is emptied before its run starts.  Nothing of the main
    simulation happens before the reference run is done.  When it is done,
    in the world [w_ref] reached after [k0] solver steps, the flux state
    [data] of the reference monitor is read (the script reads it after
    [reset_meep]), the main simulation is created with the full geometry,
    its two monitors are added and [data] is loaded with a minus sign into
    its reflection monitor: the loop of the main run starts in the state
    [st_start], whose world is the result of that load, and the reflected
    spectrum is read in the world that loop ends in.  No other run starts
    afterwards. *)
Theorem C4_reference_run_then_main_run cfg output_dir plot w fuel :
  exists args0 spec0 run0 rest,
    st_trace
      (final_state (run_simulation cfg output_dir plot (initial_state w fuel)))
    = [EvMakedirs output_dir; EvSimulation 0 args0; EvSetGeometry 0 [];
       EvAddFlux 0 0 spec0; EvRunStart 0 run0] ++ rest
    /\ (rest = []
        \/ exists k0 spec2 run1 rest',
             let w_ref :=
               steps 0 k0
                 (sv_add_flux 0 0 spec0
                    (sv_set_geometry 0 [] (sv_simulation 0 args0 w))) in
             let data := sv_get_flux_data 0 0 (sv_reset_meep 0 w_ref) in
             let t_main :=
               [EvRunDone 0; EvGetFluxes 0; EvGetFluxFreqs 0; EvResetMeep 0;
                EvGetFluxData 0 0 data; EvSimulation 1 args0;
                EvAddFlux 1 1 spec0; EvAddFlux 1 2 spec2;
                EvLoadMinusFluxData 1 1 data; EvRunStart 1 run1] in
             let st_start :=
               {| st_world :=
                    sv_load_minus_flux_data 1 1 data
                      (sv_add_flux 1 2 spec2
                         (sv_add_flux 1 1 spec0
                            (sv_simulation 1 args0 (sv_reset_meep 0 w_ref))));
                  st_trace :=
                    [EvMakedirs output_dir; EvSimulation 0 args0;
                     EvSetGeometry 0 []; EvAddFlux 0 0 spec0;
                     EvRunStart 0 run0] ++ t_main;
                  st_fuel := fuel - k0; st_sims := 2; st_fluxes := 3;
                  st_field_t := []; st_field_ez := [] |} in
             (k0 <= fuel)%nat
             /\ sv_stop 0 (until_after_sources run0) w_ref = true
             /\ rest = t_main ++ rest'
             /\ geometry args0 = build_geometry cfg
             /\ ((exists st,
                    run_loop (fuel - k0) 1 run1 st_start = Diverges st
                    /\ run_simulation cfg output_dir plot
                         (initial_state w fuel) = Diverges st
                    /\ rest' = [])
                 \/ exists st_end results st,
                      run_loop (fuel - k0) 1 run1 st_start
                      = Returns tt st_end
                      /\ run_simulation cfg output_dir plot
                           (initial_state w fuel) = Returns results st
                      /\ s11_db results
                         = to_db (s11_of (sv_get_fluxes 1 (st_world st_end))
                                    (sv_get_fluxes 0 w_ref))
                      /\ rest'
                         = [EvRunDone 1; EvGetFluxes 1; EvGetFluxes 2;
                            EvSavez (output_dir ++ "/results.npz") results]
                           ++ (if plot
                               then [EvPlotResults results output_dir]
                               else []))
             /\ forall sim run, ~ In (EvRunStart sim run) rest').
Proof.
  destruct (run_simulation_execution cfg output_dir plot w fuel)
    as (cell & H).
  cbv zeta in H. cbv zeta.
  destruct H as [(st & Ho & Ht)
                | (k0 & Hk0 & Hs0
                   & [(st & Hl & Ho & Ht)
                     | (k1 & Hk1 & Hs1 & Hl & st & Ho & Ht)])];
    rewrite Ho; cbn [final_state]; rewrite Ht; clear Ho Ht; do 3 eexists.
  - exists []. split; [reflexivity | left; reflexivity].
  - eexists. split; [reflexivity|]. right.
    exists k0. do 2 eexists. exists [].
    split; [exact Hk0|]. split; [exact Hs0|].
    split; [rewrite app_nil_r; reflexivity|]. split; [reflexivity|].
    split; [|intros sim run []].
    left. exists st. split; [exact Hl|]. split; reflexivity.
  - eexists. split; [reflexivity|]. right.
    exists k0. do 3 eexists.
    split; [exact Hk0|]. split; [exact Hs0|].
    split; [reflexivity|]. split; [reflexivity|].
    split.
    + right. do 3 eexists. split; [exact Hl|]. split; [reflexivity|].
      split; reflexivity.
    + intros sim run Hin. destruct plot; simpl in Hin;
        repeat (destruct Hin as [Hin | Hin]; [discriminate|]); exact Hin.
Qed.

(** X7: the reference pass and the main pass differ in their geometry
    only.  The two simulations of an execution are created from equal
    arguments (cell, geometry, source, absorbing layers, resolution, default
    material), the geometry being that of [build_geometry]; the geometry of
    the first is then emptied, and the geometry of the second is never
    replaced. *)
Theorem X7_both_simulations_same_arguments cfg output_dir plot w fuel a0 a1 :
  In (EvSimulation 0 a0)
    (st_trace
       (final_state
          (run_simulation cfg output_dir plot (initial_state w fuel)))) ->
  In (EvSimulation 1 a1)
    (st_trace
       (final_state
          (run_simulation cfg output_dir plot (initial_state w fuel)))) ->
  a0 = a1
  /\ geometry a0 = build_geometry cfg
  /\ In (EvSetGeometry 0 [])
       (st_trace
          (final_state
             (run_simulation cfg output_dir plot (initial_state w fuel))))
  /\ forall g,
       ~ In (EvSetGeometry 1 g)
           (st_trace
              (final_state
                 (run_simulation cfg output_dir plot (initial_state w fuel)))).
Proof.
  destruct (run_simulation_calls cfg output_dir plot w fuel) as (cell & H).
  intros H0 H1.
  trace_shapes H; rewrite Ho in *; simpl final_state in *; rewrite Ht in *;
    try destruct plot; simpl in H0, H1 |- *.
  all: in_cases.
  all: repeat split; try tauto.
  all: intros g Hin; in_cases.
Qed.

(** X8: the monitors and the probes follow the source.  Every simulation
    of an execution has exactly one source, an [Ez] Gaussian pulse at the
    converted centre frequency and width; every flux monitor is added with
    that centre frequency, that width and 50 bins; every run watches the
    decay of [Ez] at the centre of the source; and the point at which
    [capture_field] samples the field is that centre too. *)
Theorem X8_monitors_and_probes_follow_source cfg output_dir plot w fuel
    sim a :
  In (EvSimulation sim a)
    (st_trace
       (final_state
          (run_simulation cfg output_dir plot (initial_state w fuel)))) ->
  exists s,
    sources a = [s]
    /\ component s = Ez
    /\ frequency (src s) = ghz_to_meep (freq_center_ghz cfg)
    /\ fwidth (src s) = ghz_to_meep (freq_width_ghz cfg)
    /\ (forall sim' m spec,
          In (EvAddFlux sim' m spec)
            (st_trace
               (final_state
                  (run_simulation cfg output_dir plot (initial_state w fuel))))
          -> fs_fcen spec = frequency (src s)
             /\ fs_fwidth spec = fwidth (src s)
             /\ fs_nfreq spec = 50%Z)
    /\ (forall sim' run,
          In (EvRunStart sim' run)
            (st_trace
               (final_state
                  (run_simulation cfg output_dir plot (initial_state w fuel))))
          -> sc_component (until_after_sources run) = component s
             /\ sc_pt (until_after_sources run) = src_center s)
    /\ (forall sim' run c vol st0,
          In (EvRunStart sim' run)
            (st_trace
               (final_state
                  (run_simulation cfg output_dir plot (initial_state w fuel))))
          -> In (at_every 1 (capture_field c)) (step_funcs run)
          -> st_field_ez (eval_step_func sim' vol (capture_field c) st0)
             = st_field_ez st0
               ++ [sv_get_field_point sim' (component s) (src_center s)
                     (st_world st0)]).
Proof.
  destruct (run_simulation_calls cfg output_dir plot w fuel) as (cell & H).
  intros H0.
  trace_shapes H; rewrite Ho in *; simpl final_state in *; rewrite Ht in *;
    try destruct plot; simpl in H0 |- *.
  all: in_cases.
  all: eexists; split; [reflexivity|]; split; [reflexivity|];
    split; [reflexivity|]; split; [reflexivity|];
    cbn [src frequency fwidth component src_center].
  all: split; [intros sim' m spec Hin; in_cases; repeat split|].
  all: split; [intros sim' run Hin; in_cases; repeat split|].
  all: intros sim' run c vol st0 Hin Hc; in_cases; reflexivity.
Qed.

(** X9: both ratios are normalised by the reference run's reflection
    monitor.  When the script returns, the reference run has taken [k0]
    solver steps on the simulation whose geometry was emptied and has ended
    in a world [w_ref] where the decay criterion holds; the frequency axis
    is that monitor's grid read in [w_ref], converted to GHz; the incident
    spectrum of both [S11] and [S21] is that monitor's flux read in [w_ref].
    The loop of the main run starts in the state [st_start], in whose world
    the flux state read after [reset_meep] has been loaded with a minus sign
    into monitor 1; it stops after [k1] iterations, and the reflected and
    transmitted spectra are read from monitors 1 and 2 in the world
    [w_main] in which it ends, by the two calls that follow the end of the
    run. *)
Theorem X9_normalised_by_reference_monitor cfg output_dir plot w fuel
    results st :
  run_simulation cfg output_dir plot (initial_state w fuel)
  = Returns results st ->
  exists args spec_r spec_t run0 run1 k0 k1,
    let w_ref :=
      steps 0 k0
        (sv_add_flux 0 0 spec_r
           (sv_set_geometry 0 [] (sv_simulation 0 args w))) in
    let data := sv_get_flux_data 0 0 (sv_reset_meep 0 w_ref) in
    let t_start :=
      [EvMakedirs output_dir; EvSimulation 0 args; EvSetGeometry 0 [];
       EvAddFlux 0 0 spec_r; EvRunStart 0 run0; EvRunDone 0; EvGetFluxes 0;
       EvGetFluxFreqs 0; EvResetMeep 0; EvGetFluxData 0 0 data;
       EvSimulation 1 args; EvAddFlux 1 1 spec_r; EvAddFlux 1 2 spec_t;
       EvLoadMinusFluxData 1 1 data; EvRunStart 1 run1] in
    let st_start :=
      {| st_world :=
           sv_load_minus_flux_data 1 1 data
             (sv_add_flux 1 2 spec_t
                (sv_add_flux 1 1 spec_r
                   (sv_simulation 1 args (sv_reset_meep 0 w_ref))));
         st_trace := t_start;
         st_fuel := fuel - k0; st_sims := 2; st_fluxes := 3;
         st_field_t := []; st_field_ez := [] |} in
    let w_main := st_world (run_end 1 run1 k1 st_start) in
    geometry args = build_geometry cfg
    /\ (k0 + k1 <= fuel)%nat
    /\ until_after_sources run0 = decay_criterion cfg
    /\ until_after_sources run1 = decay_criterion cfg
    /\ sv_stop 0 (decay_criterion cfg) w_ref = true
    /\ sv_stop 1 (decay_criterion cfg)
         (st_world (Nat.iter k1 (loop_body 1 run1) st_start)) = true
    /\ run_loop (fuel - k0) 1 run1 st_start
       = Returns tt (with_fuel (fuel - k0 - k1) (run_end 1 run1 k1 st_start))
    /\ st_trace st
       = t_start
         ++ [EvRunDone 1; EvGetFluxes 1; EvGetFluxes 2;
             EvSavez (output_dir ++ "/results.npz") results]
         ++ (if plot then [EvPlotResults results output_dir] else [])
    /\ freqs_ghz results = map meep_to_ghz (sv_get_flux_freqs 0 w_ref)
    /\ s11_db results
       = to_db (s11_of (sv_get_fluxes 1 w_main) (sv_get_fluxes 0 w_ref))
    /\ s21_db results
       = to_db (s21_of (sv_get_fluxes 2 w_main) (sv_get_fluxes 0 w_ref)).
Proof.
  intros Hret.
  destruct (run_simulation_execution cfg output_dir plot w fuel)
    as (cell & H).
  cbv zeta in H. cbv zeta.
  destruct H as [(st' & Ho & Ht)
                | (k0 & Hk0 & Hs0
                   & [(st' & Hl & Ho & Ht)
                     | (k1 & Hk1 & Hs1 & Hl & st' & Ho & Ht)])];
    rewrite Hret in Ho; try discriminate Ho.
  injection Ho as -> ->.
  do 5 eexists. exists k0, k1.
  refine (conj _ (conj _ (conj _ (conj _ (conj Hs0 (conj Hs1 (conj Hl
            (conj Ht _)))))))); [reflexivity | lia | reflexivity
                                | reflexivity | repeat split].
Qed.

(** X10: the sign of the reflection ratio drops out of the decibel values.
    In every bin [S11] is the opposite of the ratio [r / i], bit for bit
    (the int [0] staying [0]), so the decibel values of [S11] are those the
    transmission formula gives on the same two spectra. *)
Theorem X10_reflection_sign_drops_out refl_flux incident_flux :
  s11_of refl_flux incident_flux
  = map num_opp (s21_of refl_flux incident_flux)
  /\ to_db (s11_of refl_flux incident_flux)
     = to_db (s21_of refl_flux incident_flux).
Proof.
  unfold to_db, s11_of, s21_of. rewrite !map_map.
  split; apply map_ext; intros [r i]; destruct (float_ne0 i); simpl;
    try reflexivity.
  - rewrite opp_div. reflexivity.
  - rewrite opp_div. unfold db_of, num_ne0, float_ne0, num_abs, to_float.
    rewrite eqb0_opp, abs_opp. reflexivity.
Qed.

(** X11: the time arrays share one length.  Whatever the solver does, the
    [field_t] and [field_ez] arrays of the returned dictionary have the same
    number of samples: [field_data] is emptied before the main run and
    [capture_field] appends one time and one field value at each call. *)
Theorem X11_field_arrays_same_length cfg output_dir plot w fuel results st :
  run_simulation cfg output_dir plot (initial_state w fuel)
  = Returns results st ->
  List.length (field_t results) = List.length (field_ez results).
Proof.
  intros H.
  destruct (run_simulation_returns _ _ _ _ _ _ _ H)
    as (args & spec & k & w_ref & w_main & t & ez & _ & _ & _ & _
        & -> & Hl & _).
  simpl. rewrite length_map. exact Hl.
Qed.

(** X12: the frequency arrays share one length when the solver keeps to
    the grid.  If every monitor reports [n] fluxes and [n] frequencies, the
    [freqs_ghz], [s11_db] and [s21_db] arrays of the returned dictionary
    all have [n] entries. *)
Theorem X12_frequency_arrays_same_length n cfg output_dir plot w fuel
    results st :
  (forall m w', List.length (sv_get_fluxes m w') = n) ->
  (forall m w', List.length (sv_get_flux_freqs m w') = n) ->
  run_simulation cfg output_dir plot (initial_state w fuel)
  = Returns results st ->
  List.length (freqs_ghz results) = n
  /\ List.length (s11_db results) = n
  /\ List.length (s21_db results) = n.
Proof.
  intros Hf Hq H.
  destruct (run_simulation_returns _ _ _ _ _ _ _ H)
    as (args & spec & k & w_ref & w_main & t & ez & _ & _ & _ & _
        & -> & _ & _).
  simpl.
  rewrite length_map, !to_db_length, s11_of_length, s21_of_length, !Hf, Hq.
  rewrite Nat.min_id. repeat split.
Qed.

(** X13: results are saved once, at the end, and only then.  When the
    script returns, its last calls are the saving of the returned
    dictionary under [output_dir/results.npz] and, if and only if [plot] is
    set, [plot_results] on the same dictionary; nothing was saved or
    plotted before.  An execution that is still inside a run has saved
    nothing and plotted nothing. *)
Theorem X13_results_saved_only_on_return cfg output_dir plot w fuel :
  (forall results st,
     run_simulation cfg output_dir plot (initial_state w fuel)
     = Returns results st ->
     exists pre,
       st_trace st
       = pre ++ EvSavez (output_dir ++ "/results.npz") results
                :: (if plot then [EvPlotResults results output_dir] else [])
       /\ (forall p r, ~ In (EvSavez p r) pre)
       /\ (forall r d, ~ In (EvPlotResults r d) pre))
  /\ (forall st,
        run_simulation cfg output_dir plot (initial_state w fuel)
        = Diverges st ->
        (forall p r, ~ In (EvSavez p r) (st_trace st))
        /\ (forall r d, ~ In (EvPlotResults r d) (st_trace st))).
Proof.
  destruct (run_simulation_calls cfg output_dir plot w fuel) as (cell & H).
  split.
  - intros results st Hret.
    trace_shapes H; rewrite Hret in Ho; try discriminate Ho.
    injection Ho as <- <-. rewrite Ht.
    eexists. split.
    + rewrite !app_assoc. rewrite <- app_assoc.
      change ([?a; ?b; ?c; ?d] ++ ?l) with ([a; b; c] ++ d :: l).
      rewrite app_assoc. reflexivity.
    + split; [intros p r Hin | intros r d Hin]; in_cases.
  - intros st Hdiv.
    trace_shapes H; rewrite Hdiv in Ho; try discriminate Ho;
      injection Ho as <-; rewrite Ht;
      (split; [intros p r Hin | intros r d Hin]; in_cases).
Qed.

(** X14: the script returns when the field decays.  If, from any state,
    the decay criterion of a run holds after at most [bound] iterations of
    its loop, an execution allowed twice that many solver steps carries out
    both runs and returns its results. *)
Theorem X14_returns_when_fields_decay bound cfg output_dir plot w fuel :
  (forall sim args st,
     exists k,
       (k <= bound)%nat
       /\ sv_stop sim (until_after_sources args)
            (st_world (Nat.iter k (loop_body sim args) st)) = true) ->
  (2 * bound <= fuel)%nat ->
  exists results st,
    run_simulation cfg output_dir plot (initial_state w fuel)
    = Returns results st.
Proof.
  intros Hdecay Hfuel. exec_script.
  match goal with
  | |- context [run_loop ?n ?s ?a ?st] =>
      destruct (Hdecay s a st) as (k0 & Hk0 & Hs0);
      destruct (run_loop_returns_within n s a k0 st ltac:(lia) Hs0)
        as ([w1 tr1 f1 s1 fl1 ft1 fe1] & Hr0 & Hf0);
      rewrite Hr0
  end.
  cbn [st_fuel] in Hf0. exec_script.
  match goal with
  | |- context [run_loop ?n ?s ?a ?st] =>
      destruct (Hdecay s a st) as (k1 & Hk1 & Hs1);
      destruct (run_loop_returns_within n s a k1 st ltac:(lia) Hs1)
        as (st1 & Hr1 & _);
      rewrite Hr1
  end.
  destruct plot; exec_script; do 2 eexists; reflexivity.
Qed.

(** X15: no command-line flag changes the structure.  Whatever the flags,
    every simulation the entry point creates has the geometry of the
    module's configuration and the resolution given by [--resolution];
    every monitor has the centre frequency and width given by
    [--freq-center] and [--freq-width]; the results are saved under
    [<output>/bgr_<timestamp>/results.npz]; and with the declared defaults
    the entry point runs the configuration as the module defines it. *)
Theorem X15_cli_leaves_geometry_alone args timestamp w fuel :
  (forall sim a,
     In (EvSimulation sim a)
       (st_trace (final_state (main args timestamp (initial_state w fuel)))) ->
     geometry a = build_geometry config
     /\ sim_resolution a = args_resolution args)
  /\ (forall sim m spec,
        In (EvAddFlux sim m spec)
          (st_trace
             (final_state (main args timestamp (initial_state w fuel)))) ->
        fs_fcen spec = ghz_to_meep (args_freq_center args)
        /\ fs_fwidth spec = ghz_to_meep (args_freq_width args))
  /\ (forall results st,
        main args timestamp (initial_state w fuel) = Returns results st ->
        In (EvSavez
              ((args_output args ++ "/bgr_" ++ timestamp) ++ "/results.npz")
              results)
           (st_trace st))
  /\ main default_args timestamp
     = run_simulation config ("output/bgr_" ++ timestamp) false.
Proof.
  unfold main.
  destruct (run_simulation_calls (update_config config args)
              (args_output args ++ "/bgr_" ++ timestamp) (args_plot args)
              w fuel) as (cell & H).
  split; [|split; [|split]].
  - intros sim a Hin.
    trace_shapes H; rewrite Ho in *; simpl final_state in *; rewrite Ht in *;
      try destruct (args_plot args); simpl in Hin; in_cases;
      split; reflexivity.
  - intros sim m spec Hin.
    trace_shapes H; rewrite Ho in *; simpl final_state in *; rewrite Ht in *;
      try destruct (args_plot args); simpl in Hin; in_cases;
      split; reflexivity.
  - intros results st Hret.
    trace_shapes H; rewrite Hret in Ho; try discriminate Ho.
    injection Ho as <- <-. rewrite Ht.
    destruct (args_plot args); simpl; tauto.
  - reflexivity.
Qed.

End FlowTheorems.

(** ** Concrete executions of the script *)

(** With a solver whose runs stop at once, the two simulations are created
    by the calls of rank 1 and 10. *)
Lemma X7_both_simulations_same_arguments_witness :
  exists a0 a1,
    In (EvSimulation 0 a0)
      (st_trace
         (final_state
            (@run_simulation np_stub quiet_solver config "output" false
               (initial_state (sv := quiet_solver) tt 0))))
    /\ In (EvSimulation 1 a1)
         (st_trace
            (final_state
               (@run_simulation np_stub quiet_solver config "output" false
                  (initial_state (sv := quiet_solver) tt 0))))
    /\ a0 = a1
    /\ geometry a0 = build_geometry config.
Proof.
  assert (H0 : exists a0,
             nth_error
               (st_trace
                  (final_state
                     (@run_simulation np_stub quiet_solver config "output"
                        false (initial_state (sv := quiet_solver) tt 0)))) 1
             = Some (EvSimulation 0 a0)).
  { destruct (nth_error _ 1) as [e|] eqn:E; vm_compute in E;
      [injection E as <-; eexists; reflexivity | discriminate E]. }
  assert (H1 : exists a1,
             nth_error
               (st_trace
                  (final_state
                     (@run_simulation np_stub quiet_solver config "output"
                        false (initial_state (sv := quiet_solver) tt 0)))) 10
             = Some (EvSimulation 1 a1)).
  { destruct (nth_error _ 10) as [e|] eqn:E; vm_compute in E;
      [injection E as <-; eexists; reflexivity | discriminate E]. }
  destruct H0 as (a0 & H0). destruct H1 as (a1 & H1).
  apply nth_error_In in H0. apply nth_error_In in H1.
  exists a0, a1. split; [exact H0|]. split; [exact H1|].
  destruct (@X7_both_simulations_same_arguments np_stub quiet_solver config
              "output" false tt 0%nat a0 a1 H0 H1) as (A & B & _).
  split; assumption.
Defined.

(** The source of that execution: an [Ez] pulse at the solver frequency of
    5 GHz. *)
Lemma X8_monitors_and_probes_follow_source_witness :
  exists a s,
    In (EvSimulation 0 a)
      (st_trace
         (final_state
            (@run_simulation np_stub quiet_solver config "output" false
               (initial_state (sv := quiet_solver) tt 0))))
    /\ sources a = [s]
    /\ component s = Ez
    /\ frequency (src s) = ghz_to_meep 5.
Proof.
  assert (H0 : exists a,
             nth_error
               (st_trace
                  (final_state
                     (@run_simulation np_stub quiet_solver config "output"
                        false (initial_state (sv := quiet_solver) tt 0)))) 1
             = Some (EvSimulation 0 a)).
  { destruct (nth_error _ 1) as [e|] eqn:E; vm_compute in E;
      [injection E as <-; eexists; reflexivity | discriminate E]. }
  destruct H0 as (a & H0). apply nth_error_In in H0.
  destruct (@X8_monitors_and_probes_follow_source np_stub quiet_solver config
              "output" false tt 0%nat 0%nat a H0) as (s & A & B & C & _).
  exists a, s. split; [exact H0|]. split; [exact A|]. split; assumption.
Defined.

(** That execution returns: neither run takes a step, and the one
    incident bin comes from monitor 0. *)
Lemma X9_normalised_by_reference_monitor_witness :
  exists results st k0 k1,
    @run_simulation np_stub quiet_solver config "output" false
      (initial_state (sv := quiet_solver) tt 0)
    = Returns results st
    /\ (k0 + k1 <= 0)%nat
    /\ s11_db results
       = @to_db np_stub (s11_of (mismatched_fluxes 1) (mismatched_fluxes 0))
    /\ s21_db results
       = @to_db np_stub (s21_of (mismatched_fluxes 2) (mismatched_fluxes 0)).
Proof.
  destruct (@run_simulation np_stub quiet_solver config "output" false
              (initial_state (sv := quiet_solver) tt 0))
    as [results st | e st | st] eqn:E;
    [| vm_compute in E; discriminate E | vm_compute in E; discriminate E].
  destruct (@X9_normalised_by_reference_monitor np_stub quiet_solver config
              "output" false tt 0%nat results st E)
    as (args & spec_r & spec_t & run0 & run1 & k0 & k1 & H).
  cbv zeta in H.
  destruct H as (_ & Hk & _ & _ & _ & _ & _ & _ & _ & H11 & H21).
  exists results, st, k0, k1.
  split; [reflexivity|]. split; [exact Hk|]. split; [exact H11 | exact H21].
Defined.

(** That execution samples the field once. *)
Lemma X11_field_arrays_same_length_witness :
  exists results st,
    @run_simulation np_stub quiet_solver config "output" false
      (initial_state (sv := quiet_solver) tt 0)
    = Returns results st
    /\ List.length (field_t results) = List.length (field_ez results).
Proof.
  destruct (@run_simulation np_stub quiet_solver config "output" false
              (initial_state (sv := quiet_solver) tt 0))
    as [results st | e st | st] eqn:E;
    [| vm_compute in E; discriminate E | vm_compute in E; discriminate E].
  exists results, st. split; [reflexivity|].
  exact (@X11_field_arrays_same_length np_stub quiet_solver config "output"
           false tt 0%nat results st E).
Defined.

(** With a solver whose monitors report two bins each, the three frequency
    arrays have two entries. *)
Lemma X12_frequency_arrays_same_length_witness :
  exists results st,
    @run_simulation np_stub grid_solver config "output" false
      (initial_state (sv := grid_solver) tt 0)
    = Returns results st
    /\ List.length (freqs_ghz results) = 2%nat
    /\ List.length (s11_db results) = 2%nat
    /\ List.length (s21_db results) = 2%nat.
Proof.
  destruct (@run_simulation np_stub grid_solver config "output" false
              (initial_state (sv := grid_solver) tt 0))
    as [results st | e st | st] eqn:E;
    [| vm_compute in E; discriminate E | vm_compute in E; discriminate E].
  exists results, st. split; [reflexivity|].
  exact (@X12_frequency_arrays_same_length np_stub grid_solver 2%nat config
           "output" false tt 0%nat results st
           (fun _ _ => eq_refl) (fun _ _ => eq_refl) E).
Defined.

(** A solver whose runs stop at once needs no step at all. *)
Lemma X14_returns_when_fields_decay_witness :
  (forall sim args st,
     exists k,
       (k <= 0)%nat
       /\ @sv_stop quiet_solver sim (until_after_sources args)
            (st_world (Nat.iter k (loop_body sim args) st)) = true)
  /\ exists results st,
       @run_simulation np_stub quiet_solver config "output" false
         (initial_state (sv := quiet_solver) tt 0)
       = Returns results st.
Proof.
  assert (H : forall sim args st,
             exists k,
               (k <= 0)%nat
               /\ @sv_stop quiet_solver sim (until_after_sources args)
                    (st_world (Nat.iter k (loop_body sim args) st)) = true)
    by (intros sim args st; exists 0%nat; split; [apply le_n | reflexivity]).
  split; [exact H|].
  exact (@X14_returns_when_fields_decay np_stub quiet_solver 0%nat config
           "output" false tt 0%nat H (le_n 0)).
Defined.

(** ** The exported script *)

Section ExportedScriptFacts.
Import MeepExportScript.
Context {sv : MeepExportScript.Solver}.

Lemma export_step_fields f : forall st,
  List.length (st_field_t st) = List.length (st_field_ez st) ->
  List.length (st_field_t (eval_step_func f st))
  = List.length (st_field_ez (eval_step_func f st)).
Proof.
  induction f as [interval g IH | ]; intros st H; simpl.
  - destruct (sv_due interval (st_world st)); [apply IH|]; exact H.
  - rewrite !length_app, H. reflexivity.
Qed.

Lemma export_step_frame f : forall st,
  st_trace (eval_step_func f st) = st_trace st
  /\ st_fluxes (eval_step_func f st) = st_fluxes st.
Proof.
  induction f as [interval g IHg | ]; intros st; simpl.
  - destruct (sv_due interval (st_world st)); [apply IHg | auto].
  - auto.
Qed.

Lemma export_steps_frame fs : forall st,
  (List.length (st_field_t st) = List.length (st_field_ez st) ->
   List.length (st_field_t (eval_step_funcs fs st))
   = List.length (st_field_ez (eval_step_funcs fs st)))
  /\ st_trace (eval_step_funcs fs st) = st_trace st
  /\ st_fluxes (eval_step_funcs fs st) = st_fluxes st.
Proof.
  unfold eval_step_funcs.
  induction fs as [|f fs IH]; intros st; simpl; [auto|].
  destruct (IH (eval_step_func f st)) as (A & B & C).
  destruct (export_step_frame f st) as [F1 F2].
  split; [|split; congruence].
  intros H. apply A, export_step_fields, H.
Qed.

(** A run keeps the two lists of [field_data] in step and changes neither
    the trace nor the monitors. *)
Lemma export_run_loop_frame n args : forall st,
  (List.length (st_field_t st) = List.length (st_field_ez st) ->
   List.length (st_field_t (final_state (run_loop n args st)))
   = List.length (st_field_ez (final_state (run_loop n args st))))
  /\ st_trace (final_state (run_loop n args st)) = st_trace st
  /\ st_fluxes (final_state (run_loop n args st)) = st_fluxes st.
Proof.
  induction n as [|n IH]; intros st; simpl;
    destruct (sv_stop (until_after_sources args) (st_world st)); simpl;
    try (destruct (export_steps_frame (step_funcs args) st) as (A & B & C);
         split; [exact A | split; assumption]);
    try (split; [auto | split; reflexivity]).
  destruct (export_steps_frame (step_funcs args) st) as (A & B & C).
  match goal with |- context [run_loop n args ?s] =>
    destruct (IH s) as (A' & B' & C') end.
  simpl in *. split; [|split; congruence].
  intros H. apply A', A, H.
Qed.

Lemma export_run_loop_returns_stopped n args : forall st st',
  run_loop n args st = Returns tt st' ->
  exists w', sv_stop (until_after_sources args) w' = true.
Proof.
  induction n as [|n IH]; intros st st'; simpl;
    destruct (sv_stop (until_after_sources args) (st_world st)) eqn:E;
    try discriminate; eauto.
Qed.

(** A run of the exported script that returns has stopped after some
    number [k] of iterations and ends in [export_run_end]. *)
Lemma export_run_loop_returns_iter n args : forall st st',
  run_loop n args st = Returns tt st' ->
  exists k,
    (k <= n)%nat
    /\ sv_stop (until_after_sources args)
         (st_world (Nat.iter k (export_loop_body args) st)) = true
    /\ st' = with_fuel (n - k) (export_run_end args k st).
Proof.
  induction n as [|n IH]; intros st st'; cbn [run_loop];
    destruct (sv_stop (until_after_sources args) (st_world st)) eqn:E;
    try discriminate.
  - intros [= <-]. exists 0%nat. repeat split; [lia | exact E].
  - intros [= <-]. exists 0%nat. repeat split; [lia | exact E].
  - intros H. apply IH in H as (k & Hk & Hs & ->).
    exists (S k). rewrite Nat.iter_succ_r. unfold export_run_end.
    rewrite Nat.iter_succ_r. repeat split; [lia | exact Hs].
Qed.

Ltac export_exec :=
  cbv beta iota zeta delta
    [run_simulation build_flux_monitors mp_Simulation add_flux sim_run
     new_field_data get_field_data emit ask_world with_world with_fuel bind
     ret initial_state final_state st_world st_trace st_fuel st_fluxes
     st_field_t st_field_ez app extract_fluxes get_flux_freqs get_fluxes
     dict_set String.eqb Ascii.eqb Bool.eqb String.append] in *.

(** X16: the exported script saves raw spectra and the field samples it
    returns.  When its [run_simulation] returns, it has created one
    simulation from [build_geometry] and [build_sources], added the monitors
    [flux_x_pos] and [flux_x_neg] with the frequency band [FCEN], [FWIDTH]
    and 50 bins, and carried out a single run, whose loop starts in the
    state [st_start] and stops after [k] iterations; the dictionary it saves
    under [output_dir/results.npz] holds six entries in this order: the
    field times and values it returns, of equal length, which are those
    collected during the run, then for each monitor the frequencies and the
    fluxes the solver reports in the world [w_end] in which the run ends,
    with no normalisation. *)
Theorem X16_exported_run_saves_fields_and_raw_spectra res output_dir plot
    w fuel t ez st :
  run_simulation res output_dir plot (initial_state w fuel)
  = Returns (t, ez) st ->
  List.length t = List.length ez
  /\ exists args spec_pos spec_neg run k,
       let st_start :=
         {| st_world :=
              sv_add_flux 1 spec_neg
                (sv_add_flux 0 spec_pos (sv_simulation args w));
            st_trace :=
              [ EvMakedirs output_dir; EvSimulation args;
                EvAddFlux 0 spec_pos; EvAddFlux 1 spec_neg; EvRunStart run ];
            st_fuel := fuel; st_fluxes := 2;
            st_field_t := []; st_field_ez := [] |} in
       let st_end := export_run_end run k st_start in
       let w_end := st_world st_end in
       (k <= fuel)%nat
       /\ sv_stop (until_after_sources run)
            (st_world (Nat.iter k (export_loop_body run) st_start)) = true
       /\ run_loop fuel run st_start
          = Returns tt (with_fuel (fuel - k) st_end)
       /\ t = st_field_t st_end
       /\ ez = st_field_ez st_end
       /\ st_trace st
          = [ EvMakedirs output_dir; EvSimulation args; EvAddFlux 0 spec_pos;
              EvAddFlux 1 spec_neg; EvRunStart run; EvRunDone;
              EvGetFluxFreqs 0; EvGetFluxes 0; EvGetFluxFreqs 1;
              EvGetFluxes 1;
              EvSavez (output_dir ++ "/results.npz")
                [ ("field_t", t); ("field_ez", ez);
                  ("flux_x_pos_freqs", sv_get_flux_freqs 0 w_end);
                  ("flux_x_pos_flux", sv_get_fluxes 0 w_end);
                  ("flux_x_neg_freqs", sv_get_flux_freqs 1 w_end);
                  ("flux_x_neg_flux", sv_get_fluxes 1 w_end) ]%string ]
            ++ (if plot then [EvPlotResults (t, ez) output_dir] else [])
       /\ geometry args = MeepExport.build_geometry
       /\ sources args = build_sources
       /\ resolution args = res
       /\ (flux_fcen spec_pos, flux_fwidth spec_pos, flux_nfreq spec_pos)
          = (FCEN, FWIDTH, 50%Z)
       /\ (flux_fcen spec_neg, flux_fwidth spec_neg, flux_nfreq spec_neg)
          = (FCEN, FWIDTH, 50%Z).
Proof.
  cbv zeta. export_exec.
  match goal with
  | |- context [run_loop ?n ?a ?s] =>
      destruct (export_run_loop_frame n a s) as (HF & HT & HL);
      destruct (run_loop n a s) as [[] st1 | st1] eqn:Hrun
  end; [|discriminate].
  specialize (HF eq_refl). pose proof Hrun as Hrun'.
  apply export_run_loop_returns_iter in Hrun as (k & Hk & Hs & ->).
  export_exec.
  destruct plot; intros [= <- <- <-]; (split; [exact HF|]);
    do 4 eexists; exists k;
    refine (conj Hk (conj Hs (conj Hrun' (conj eq_refl (conj eq_refl _)))));
    rewrite HT; (split; [reflexivity|]); repeat split.
Qed.

(** X17: the exported script has no time ceiling either.  Its single run
    is given the field-decay criterion alone; if the criterion never holds,
    the execution stays inside the run however many solver steps it is
    allowed: the call that started the run is the last one, and nothing is
    saved. *)
Theorem X17_exported_run_has_no_ceiling res output_dir plot w fuel :
  (forall cond w', sv_stop cond w' = false) ->
  exists st args spec_pos spec_neg run,
    run_simulation res output_dir plot (initial_state w fuel) = Diverges st
    /\ st_trace st
       = [ EvMakedirs output_dir; EvSimulation args; EvAddFlux 0 spec_pos;
           EvAddFlux 1 spec_neg; EvRunStart run ]
    /\ step_funcs run = [ at_every 1 capture_fields ]
    /\ until_after_sources run
       = stop_when_fields_decayed 50 Ez (mkVector3 0 0 0) 1e-6.
Proof.
  intros Hnever. export_exec.
  match goal with
  | |- context [run_loop ?n ?a ?s] =>
      destruct (export_run_loop_frame n a s) as (HF & HT & HL);
      destruct (run_loop n a s) as [[] st1 | st1] eqn:Hrun
  end.
  - apply export_run_loop_returns_stopped in Hrun as [w' Hw'].
    rewrite Hnever in Hw'. discriminate Hw'.
  - export_exec. do 5 eexists. split; [reflexivity|]. rewrite HT.
    repeat split.
Qed.

End ExportedScriptFacts.

(** With a solver whose run stops at once, the exported script samples the
    field once and saves two bins for each monitor. *)
Lemma X16_exported_run_saves_fields_and_raw_spectra_witness :
  exists t ez st,
    @MeepExportScript.run_simulation (export_stub_solver true)
      MeepExportScript.RESOLUTION "output" false
      (MeepExportScript.initial_state (sv := export_stub_solver true) tt 0)
    = MeepExportScript.Returns (t, ez) st
    /\ List.length t = List.length ez
    /\ List.length t = 1%nat.
Proof.
  destruct (@MeepExportScript.run_simulation (export_stub_solver true)
              MeepExportScript.RESOLUTION "output" false
              (MeepExportScript.initial_state
                 (sv := export_stub_solver true) tt 0))
    as [[t ez] st | st] eqn:E; [| vm_compute in E; discriminate E].
  exists t, ez, st. split; [reflexivity|].
  split.
  - exact (proj1 (@X16_exported_run_saves_fields_and_raw_spectra
                    (export_stub_solver true) MeepExportScript.RESOLUTION
                    "output" false tt 0%nat t ez st E)).
  - vm_compute in E. injection E as <- _ _. reflexivity.
Defined.

(** With a solver whose field never decays, the exported script is still
    inside its run after a thousand steps. *)
Lemma X17_exported_run_has_no_ceiling_witness :
  (forall cond w',
     @MeepExportScript.sv_stop (export_stub_solver false) cond w' = false)
  /\ exists st,
       @MeepExportScript.run_simulation (export_stub_solver false)
         MeepExportScript.RESOLUTION "output" false
         (MeepExportScript.initial_state
            (sv := export_stub_solver false) tt 1000)
       = MeepExportScript.Diverges st
       /\ List.length (MeepExportScript.st_trace st) = 5%nat.
Proof.
  split; [reflexivity|].
  destruct (@X17_exported_run_has_no_ceiling (export_stub_solver false)
              MeepExportScript.RESOLUTION "output" false tt 1000%nat
              (fun _ _ => eq_refl))
    as (st & args & spec_pos & spec_neg & run & H & Ht & _).
  exists st. split; [exact H|]. rewrite Ht. reflexivity.
Defined.
